(** * Warp Preview log monitor: a shallow embedding of
      [warp_log_inspector/warp_monitor.py] and its specification.

    Python [str] values are modelled as [string], one [ascii] per character:
    the model covers lines whose characters are code points 0..255.  On that
    range [\d] is [0-9], the characters removed by [str.strip] are the ones
    of [isspace] below, and case folding of the ASCII letters that occur in
    the patterns only relates them to their ASCII counterparts. *)

From Stdlib Require Import Ascii String ZArith Lia List Bool DecimalString.
From stdpp Require Import gmap strings list fin_maps.

Local Open Scope char_scope.

(** ** Characters and strings, as Python's [str] methods see them *)

Module Py.

Definition code (c : ascii) : N := N_of_ascii c.

Definition between (lo hi : N) (c : ascii) : bool :=
  ((lo <=? code c) && (code c <=? hi))%N.

(** [\d] and the digits accepted by [int]. *)
Definition is_digit (c : ascii) : bool := between 48 57 c.

(** [str.isspace] on one character; [str.strip] and [str.split] use it. *)
Definition isspace (c : ascii) : bool :=
  between 9 13 c || between 28 32 c || (code c =? 133)%N || (code c =? 160)%N.

(** [str.isdigit] on one character: the decimal digits and the superscripts
    one, two and three. *)
Definition isdigit_char (c : ascii) : bool :=
  is_digit c || (code c =? 178)%N || (code c =? 179)%N || (code c =? 185)%N.

(** [str.lower] on one character. *)
Definition lower_char (c : ascii) : ascii :=
  if between 65 90 c || (between 192 222 c && negb (code c =? 215)%N)
  then ascii_of_N (code c + 32) else c.

Fixpoint lower (s : string) : string :=
  match s with
  | EmptyString => EmptyString
  | String c s' => String (lower_char c) (lower s')
  end.

Fixpoint lstrip (s : string) : string :=
  match s with
  | String c s' => if isspace c then lstrip s' else s
  | EmptyString => EmptyString
  end.

Fixpoint rstrip (s : string) : string :=
  match s with
  | EmptyString => EmptyString
  | String c s' =>
      match rstrip s' with
      | EmptyString => if isspace c then EmptyString else String c EmptyString
      | t => String c t
      end
  end.

Definition strip (s : string) : string := rstrip (lstrip s).

Fixpoint startswith (p s : string) : bool :=
  match p, s with
  | EmptyString, _ => true
  | String a p', String b s' => Ascii.eqb a b && startswith p' s'
  | String _ _, EmptyString => false
  end.

(** [p in s]. *)
Fixpoint contains (p s : string) : bool :=
  startswith p s ||
  match s with
  | EmptyString => false
  | String _ s' => contains p s'
  end.

(** [s[:n]]. *)
Fixpoint take (n : nat) (s : string) : string :=
  match n, s with
  | S n', String c s' => String c (take n' s')
  | _, _ => EmptyString
  end.

Fixpoint drop (n : nat) (s : string) : string :=
  match n, s with
  | S n', String _ s' => drop n' s'
  | _, _ => s
  end.

Definition is_empty (s : string) : bool :=
  match s with EmptyString => true | _ => false end.

(** [s.split(sep)] for a one-character separator. *)
Fixpoint split_on (sep : ascii) (s : string) : list string :=
  match s with
  | EmptyString => [EmptyString]
  | String c s' =>
      if Ascii.eqb c sep then EmptyString :: split_on sep s'
      else match split_on sep s' with
           | w :: ws => String c w :: ws
           | [] => [String c EmptyString]
           end
  end.

(** [s.split()]: the maximal runs of non-whitespace characters. *)
Fixpoint split_ws_aux (cur : string) (s : string) : list string :=
  match s with
  | EmptyString => if is_empty cur then [] else [cur]
  | String c s' =>
      if isspace c
      then (if is_empty cur then split_ws_aux EmptyString s'
            else cur :: split_ws_aux EmptyString s')
      else split_ws_aux (cur +:+ String c EmptyString) s'
  end.

Definition split (s : string) : list string := split_ws_aux EmptyString s.

(** [sep.join(parts)]. *)
Fixpoint join (sep : string) (parts : list string) : string :=
  match parts with
  | [] => EmptyString
  | [p] => p
  | p :: ps => p +:+ sep +:+ join sep ps
  end.

End Py.

(** ** Outcomes of a Python computation *)

Inductive exn := ValueError | IndexError | OSError | AttributeError.

(** [Raise e] is a Python exception in flight.  The embedding is typed after
    the dataclass annotations; [IllTyped] marks a run in which [None] would be
    stored where the annotation says [str]. *)
Inductive outcome (A : Type) :=
| Ok (a : A)
| Raise (e : exn)
| IllTyped.
Arguments Ok {A} a.
Arguments Raise {A} e.
Arguments IllTyped {A}.

Global Instance outcome_ret : MRet outcome := fun A a => Ok a.

Global Instance outcome_bind : MBind outcome := fun A B f m =>
  match m with
  | Ok a => f a
  | Raise e => Raise e
  | IllTyped => IllTyped
  end.

(** [try: m except e: h]. *)
Definition try_except {A} (m : outcome A) (catches : exn -> bool)
           (h : exn -> outcome A) : outcome A :=
  match m with
  | Raise e => if catches e then h e else Raise e
  | _ => m
  end.

(** ** Regular expressions, with the backtracking semantics of [re] *)

Module Re.

Inductive charset :=
| Chr (c : ascii)            (* a literal character *)
| Digit                      (* \d *)
| Space                      (* \s *)
| Any_of (cs : list ascii)   (* [abc] *)
| None_of (cs : list ascii). (* [^abc] *)

Inductive regex :=
| Eps
| One (cs : charset)
| Rep (cs : charset) (lo : nat) (hi : option nat)  (* cs{lo,hi}; cs+ is {1,} *)
| Seq (r1 r2 : regex)
| Alt (r1 r2 : regex)                              (* r1|r2, r1 tried first *)
| Opt (r : regex)                                  (* (?:r)?, greedy *)
| Grp (i : nat) (r : regex).                       (* capture group i *)

(** A literal word, one [Chr] after the other. *)
Fixpoint Str (w : string) : regex :=
  match w with
  | EmptyString => Eps
  | String c EmptyString => One (Chr c)
  | String c w' => Seq (One (Chr c)) (Str w')
  end.

Fixpoint Cat (rs : list regex) : regex :=
  match rs with
  | [] => Eps
  | [r] => r
  | r :: rs' => Seq r (Cat rs')
  end.

Fixpoint Alts (rs : list regex) : regex :=
  match rs with
  | [] => Eps
  | [r] => r
  | r :: rs' => Alt r (Alts rs')
  end.

Definition chr_eq (ic : bool) (a c : ascii) : bool :=
  if ic then Ascii.eqb (Py.lower_char a) (Py.lower_char c) else Ascii.eqb a c.

(** One character against a class; [ic] is the IGNORECASE flag. *)
Definition charset_match (ic : bool) (cs : charset) (c : ascii) : bool :=
  match cs with
  | Chr a => chr_eq ic a c
  | Digit => Py.is_digit c
  | Space => Py.isspace c
  | Any_of l => existsb (fun a => chr_eq ic a c) l
  | None_of l => negb (existsb (fun a => chr_eq ic a c) l)
  end.

Definition groups := list (nat * string).

Fixpoint get_group (i : nat) (g : groups) : option string :=
  match g with
  | [] => None
  | (j, w) :: g' => if Nat.eqb i j then Some w else get_group i g'
  end.

(** The text between where a group started ([s]) and where it ended ([s']). *)
Definition consumed (s s' : string) : string :=
  Py.take (String.length s - String.length s') s.

Section Matcher.
Context {A : Type} (ic : bool).

Definition more (hi : option nat) : bool :=
  match hi with Some 0 => false | _ => true end.

(** Greedy repetition of a class: take as many characters as allowed, then
    give them back one by one until the rest of the pattern matches. *)
Fixpoint rep_match (cs : charset) (lo : nat) (hi : option nat) (s : string)
         (k : string -> option A) : option A :=
  match s with
  | String c s' =>
      if charset_match ic cs c && more hi then
        match rep_match cs (Nat.pred lo) (option_map Nat.pred hi) s' k with
        | Some x => Some x
        | None => if Nat.eqb lo 0 then k s else None
        end
      else if Nat.eqb lo 0 then k s else None
  | EmptyString => if Nat.eqb lo 0 then k s else None
  end.

Fixpoint re_match (r : regex) (s : string) (g : groups)
         (k : string -> groups -> option A) : option A :=
  match r with
  | Eps => k s g
  | One cs =>
      match s with
      | String c s' => if charset_match ic cs c then k s' g else None
      | EmptyString => None
      end
  | Rep cs lo hi => rep_match cs lo hi s (fun s' => k s' g)
  | Seq r1 r2 => re_match r1 s g (fun s' g' => re_match r2 s' g' k)
  | Alt r1 r2 =>
      match re_match r1 s g k with
      | Some x => Some x
      | None => re_match r2 s g k
      end
  | Opt r1 =>
      match re_match r1 s g k with
      | Some x => Some x
      | None => k s g
      end
  | Grp i r1 =>
      re_match r1 s g (fun s' g' => k s' ((i, consumed s s') :: g'))
  end.
End Matcher.

(** A match object: where the match starts, how long it is, its groups. *)
Record Match := { m_start : nat; m_len : nat; m_groups : groups }.

Definition group (m : Match) (i : nat) : option string :=
  get_group i (m_groups m).

(** The pattern anchored at the start of [s]: length matched and groups. *)
Definition match_here (ic : bool) (r : regex) (s : string)
  : option (nat * groups) :=
  re_match ic r s [] (fun s' g => Some (String.length s - String.length s', g)).

(** [pattern.search(s)]: the match at the leftmost position that has one. *)
Fixpoint search_from (ic : bool) (r : regex) (pos : nat) (s : string)
  : option Match :=
  match match_here ic r s with
  | Some (n, g) => Some {| m_start := pos; m_len := n; m_groups := g |}
  | None =>
      match s with
      | EmptyString => None
      | String _ s' => search_from ic r (S pos) s'
      end
  end.

Definition search (ic : bool) (r : regex) (s : string) : option Match :=
  search_from ic r 0 s.

(** [re.sub(pattern, '', s)]: every non-overlapping match, leftmost first, is
    deleted; [skip] counts the characters of the current match still to be
    dropped.  A match of length 0 deletes nothing. *)
Fixpoint sub_skip (ic : bool) (r : regex) (skip : nat) (s : string) : string :=
  match s with
  | EmptyString => EmptyString
  | String c s' =>
      match skip with
      | S n => sub_skip ic r n s'
      | 0 =>
          match match_here ic r s with
          | Some (S n, _) => sub_skip ic r n s'
          | _ => String c (sub_skip ic r 0 s')
          end
      end
  end.

Definition sub_empty (ic : bool) (r : regex) (s : string) : string :=
  sub_skip ic r 0 s.

End Re.

(** ** [int] and [datetime] *)

Module Builtins.

(** [sys.int_info.default_max_str_digits]. *)
Definition int_max_str_digits : nat := 4300.

Definition digit_value (c : ascii) : Z := Z.of_N (Py.code c) - 48.

(** Digits with single underscores between them; [prev] tells whether the
    previous character was a digit.  Returns the value and the digit count. *)
Fixpoint int_digits (prev : bool) (acc : Z) (cnt : nat) (s : string)
  : option (Z * nat) :=
  match s with
  | EmptyString => if prev then Some (acc, cnt) else None
  | String c s' =>
      if Py.is_digit c then int_digits true (acc * 10 + digit_value c) (S cnt) s'
      else if Ascii.eqb c "_" && prev then int_digits false acc cnt s'
      else None
  end.

(** [int(s)] for a [str] argument. *)
Definition int (s : string) : outcome Z :=
  let body sign t :=
    match int_digits false 0 0 t with
    | Some (v, cnt) =>
        if Nat.ltb int_max_str_digits cnt then Raise ValueError
        else Ok (sign * v)%Z
    | None => Raise ValueError
    end in
  match Py.strip s with
  | String "+" t => body 1%Z t
  | String "-" t => body (-1)%Z t
  | t => body 1%Z t
  end.

Record datetime := {
  year : Z; month : Z; day : Z;
  hour : Z; minute : Z; second : Z; microsecond : Z
}.

Definition is_leap (y : Z) : bool :=
  ((y mod 4 =? 0) && (negb (y mod 100 =? 0) || (y mod 400 =? 0)))%Z.

Definition days_in_month (y m : Z) : Z :=
  if (m =? 2)%Z then (if is_leap y then 29 else 28)%Z
  else if ((m =? 4) || (m =? 6) || (m =? 9) || (m =? 11))%Z then 30%Z
  else 31%Z.

Definition in_range (lo hi x : Z) : bool := ((lo <=? x) && (x <=? hi))%Z.

(** [datetime.date(y, m, d)]: only its range checks matter here. *)
Definition check_date (y m d : Z) : outcome unit :=
  if in_range 1 9999 y && in_range 1 12 m && in_range 1 (days_in_month y m) d
  then Ok tt else Raise ValueError.

(** [datetime(y, m, d, H, M, S, us)]. *)
Definition datetime_new (y m d H M S us : Z) : outcome datetime :=
  _ ← check_date y m d;
  if in_range 0 23 H && in_range 0 59 M && in_range 0 59 S
     && in_range 0 999999 us
  then Ok {| year := y; month := m; day := d;
             hour := H; minute := M; second := S; microsecond := us |}
  else Raise ValueError.

Import Re.

(** The regular expression [_strptime.TimeRE] holds for a directive; the
    named group is numbered by the code of the directive's letter. *)
Definition directive (c : ascii) : option regex :=
  let d09 := Digit in
  let set (w : string) := One (Any_of (list_ascii_of_string w)) in
  let g := Grp (nat_of_ascii c) in
  match c with
  | "d" => Some (g (Alts [Seq (One (Chr "3")) (set "01"%string);
                          Seq (set "12"%string) (One d09);
                          Seq (One (Chr "0")) (set "123456789"%string);
                          set "123456789"%string;
                          Seq (One (Chr " ")) (set "123456789"%string)]))
  | "f" => Some (g (Rep (Any_of (list_ascii_of_string "0123456789"%string)) 1 (Some 6)))
  | "H" => Some (g (Alts [Seq (One (Chr "2")) (set "0123"%string);
                          Seq (set "01"%string) (One d09);
                          One d09]))
  | "M" => Some (g (Alts [Seq (set "012345"%string) (One d09); One d09]))
  | "S" => Some (g (Alts [Seq (One (Chr "6")) (set "01"%string);
                          Seq (set "012345"%string) (One d09);
                          One d09]))
  | "m" => Some (g (Alts [Seq (One (Chr "1")) (set "012"%string);
                          Seq (One (Chr "0")) (set "123456789"%string);
                          set "123456789"%string]))
  | "Y" => Some (g (Cat [One d09; One d09; One d09; One d09]))
  | _ => None
  end.

(** [TimeRE.pattern]: a run of whitespace in the format becomes [\s+], a
    directive its expression, any other character itself.  [ws] tells
    whether the previous format character was whitespace. *)
Fixpoint format_regex (ws : bool) (fmt : string) : option regex :=
  match fmt with
  | EmptyString => Some Eps
  | String "%" (String c fmt') =>
      match directive c, format_regex false fmt' with
      | Some r, Some rest => Some (Seq r rest)
      | _, _ => None
      end
  | String c fmt' =>
      match format_regex (Py.isspace c) fmt' with
      | Some rest =>
          if Py.isspace c
          then Some (if ws then rest else Seq (Rep Space 1 None) rest)
          else Some (Seq (One (Chr c)) rest)
      | None => None
      end
  end.

(** A group of decimal digits as a number; a group that is absent is 0 for
    the time fields, as in [_strptime]. *)
Fixpoint nat_of_digits (acc : Z) (s : string) : Z :=
  match s with
  | EmptyString => acc
  | String c s' => nat_of_digits (acc * 10 + digit_value c) s'
  end.

Definition field (g : groups) (c : ascii) (dflt : Z) : Z :=
  match get_group (nat_of_ascii c) g with
  | Some w => nat_of_digits 0 (Py.lstrip w)
  | None => dflt
  end.

Fixpoint zeros (n : nat) : string :=
  match n with 0 => EmptyString | S n' => String "0" (zeros n') end.

(** [%f]: the digits, padded with zeros on the right to six. *)
Definition fraction (g : groups) : Z :=
  match get_group (nat_of_ascii "f") g with
  | Some w => nat_of_digits 0 (w +:+ zeros (6 - String.length w))
  | None => 0%Z
  end.

(** [datetime.strptime(s, fmt)]. *)
Definition strptime (s fmt : string) : outcome datetime :=
  match format_regex false fmt with
  | None => Raise ValueError
  | Some r =>
      match match_here true r s with
      | None => Raise ValueError
      | Some (n, g) =>
          if negb (Nat.eqb n (String.length s)) then Raise ValueError
          else
            datetime_new (field g "Y" 1900) (field g "m" 1) (field g "d" 1)
                         (field g "H" 0) (field g "M" 0) (field g "S" 0)
                         (fraction g)
      end
  end.

End Builtins.

(** ** [LogEntry] and [LogParser] *)

Import Builtins.

Record Metadata := {
  has_error : bool;
  has_performance : bool;
  line_length : nat
}.

Record LogEntry := {
  timestamp : datetime;
  level : string;
  component : string;
  message : string;
  raw_line : string;
  pid : option Z;
  thread_id : option string;
  metadata : option Metadata
}.

Module LogParser.
Import Re.

Definition lit (c : ascii) : regex := One (Chr c).
Definition digits (n : nat) : regex := Rep Digit n (Some n).

(** [PATTERNS]. *)
Definition PATTERNS_timestamp : regex :=
  Grp 1 (Cat [digits 4; lit "-"; digits 2; lit "-"; digits 2;
              One (Any_of ["T"; " "]);
              digits 2; lit ":"; digits 2; lit ":"; digits 2;
              Opt (Seq (lit ".") (digits 3));
              Opt (Alt (lit "Z")
                       (Cat [One (Any_of ["+"; "-"]); digits 2; lit ":";
                             digits 2]))]).

Definition PATTERNS_level : regex :=
  Cat [lit "[";
       Grp 1 (Alts [Str "DEBUG"; Str "INFO"; Str "WARN"; Str "ERROR";
                    Str "TRACE"; Str "FATAL"]);
       lit "]"].

Definition PATTERNS_component : regex :=
  Cat [lit "["; Grp 1 (Rep (None_of ["]"]) 1 None); lit "]"].

Definition PATTERNS_pid_thread : regex :=
  Cat [lit "["; Grp 1 (Rep Digit 1 None); lit ":";
       Grp 2 (Rep (None_of ["]"]) 1 None); lit "]"].

Definition PATTERNS_error : regex :=
  Grp 1 (Alts [Str "error"; Str "exception"; Str "failed"; Str "panic";
               Str "crash"]).

Definition PATTERNS_performance : regex :=
  Grp 1 (Alts [Str "took"; Str "duration"; Str "elapsed"; Str "ms";
               Str "seconds"]).

(** [compiled_patterns[k].search]: every pattern is compiled with
    [re.IGNORECASE]. *)
Definition compiled_search (r : regex) (line : string) : option Match :=
  search true r line.

(** [match.group(i)] where the code needs a [str]. *)
Definition group_str (m : Match) (i : nat) : outcome string :=
  match group m i with
  | Some w => Ok w
  | None => IllTyped
  end.

Definition formats : list string :=
  ["%Y-%m-%dT%H:%M:%S.%fZ"; "%Y-%m-%dT%H:%M:%S.%f"; "%Y-%m-%d %H:%M:%S.%f";
   "%Y-%m-%dT%H:%M:%SZ"; "%Y-%m-%dT%H:%M:%S"; "%Y-%m-%d %H:%M:%S"]%string.

Definition is_ValueError (e : exn) : bool :=
  match e with ValueError => true | _ => false end.

(** The [for fmt in formats] loop of [_extract_timestamp]; [None] when the
    loop ends without a [return]. *)
Fixpoint try_formats (fmts : list string) (ts_str : string)
  : outcome (option datetime) :=
  match fmts with
  | [] => Ok None
  | fmt :: rest =>
      try_except (d ← strptime ts_str fmt; Ok (Some d)) is_ValueError
                 (fun _ => try_formats rest ts_str)
  end.

(** [now] is what [datetime.now()] returns during the call. *)
Definition _extract_timestamp (now : datetime) (line : string)
  : outcome datetime :=
  match compiled_search PATTERNS_timestamp line with
  | Some m =>
      ts_str ← group_str m 1;
      r ← try_formats formats ts_str;
      match r with
      | Some d => Ok d
      | None => Ok now
      end
  | None => Ok now
  end.

Definition _extract_level (line : string) : outcome string :=
  match compiled_search PATTERNS_level line with
  | Some m => group_str m 1
  | None => Ok "INFO"%string
  end.

Definition _extract_component (line : string) : outcome string :=
  match compiled_search PATTERNS_component line with
  | Some m => group_str m 1
  | None => Ok "unknown"%string
  end.

Definition _extract_pid_thread (line : string)
  : outcome (option Z * option string) :=
  match compiled_search PATTERNS_pid_thread line with
  | Some m =>
      try_except
        (g1 ← group_str m 1;
         p ← int g1;
         t ← group_str m 2;
         Ok (Some p, Some t))
        is_ValueError
        (fun _ => Ok (None, None))
  | None => Ok (None, None)
  end.

(** One turn of the cleaning loop: [re.sub(pattern, '', message).strip()];
    [re.sub] gets the pattern text, so no flag applies. *)
Definition clean (message : string) (pattern : regex) : string :=
  Py.strip (sub_empty false pattern message).

Definition parse_line (now : datetime) (line : string) : outcome LogEntry :=
  ts ← _extract_timestamp now line;
  lvl ← _extract_level line;
  comp ← _extract_component line;
  pt ← _extract_pid_thread line;
  let msg := fold_left clean
               [PATTERNS_timestamp; PATTERNS_level; PATTERNS_component;
                PATTERNS_pid_thread] line in
  let md := {| has_error := bool_decide (is_Some (compiled_search PATTERNS_error line));
               has_performance :=
                 bool_decide (is_Some (compiled_search PATTERNS_performance line));
               line_length := String.length line |} in
  Ok {| timestamp := ts; level := lvl; component := comp; message := msg;
        raw_line := line; pid := pt.1; thread_id := pt.2;
        metadata := Some md |}.

End LogParser.

(** ** [collections.deque] with a [maxlen] *)

Module Deque.

Record deque (A : Type) := { items : list A; maxlen : nat }.
Arguments items {A} d.
Arguments maxlen {A} d.

(** [deque(maxlen=n)]. *)
Definition new {A} (n : nat) : deque A := {| items := []; maxlen := n |}.

(** [d.append(x)]: add on the right, then drop the leftmost element when the
    length exceeds [maxlen]. *)
Definition append {A} (x : A) (d : deque A) : deque A :=
  let l := items d ++ [x] in
  {| items := if Nat.ltb (maxlen d) (length l) then tail l else l;
     maxlen := maxlen d |}.

Definition len {A} (d : deque A) : nat := length (items d).

End Deque.

(** ** The monitor, its files and the console *)

Import Deque.

(** What [_log_error] hands to [json.dumps]. *)
Record ErrorRecord := {
  er_timestamp : datetime;
  er_level : string;
  er_component : string;
  er_message : string;
  er_pid : option Z;
  er_metadata : option Metadata
}.

(** What [_log_to_monitor] hands to [json.dumps]. *)
Record MonitorRecord := {
  mr_timestamp : datetime;
  mr_level : string;
  mr_component : string;
  mr_message : string;
  mr_pid : option Z
}.

(** What [_save_current_stats] hands to [json.dump]. *)
Record StatsDoc := {
  sd_counters : gmap string Z;
  sd_timestamp : datetime;
  sd_uptime_seconds : Z
}.

Inductive file := MonitorLog | StatsFile | ErrorsFile.

Inductive printed :=
| Echo (ts : datetime) (lvl comp msg : string)
| ErrorProcessing (e : exn)
| ErrorLine (line : string)
| LogFileNotFound.

(** A [LogMonitor] object together with the files it writes.  The two
    append-only files are the lists of records written so far; [can_open]
    tells whether [open] on a file succeeds at the moment. *)
Record World := {
  running : bool;
  verbose : option bool;        (* [None]: the attribute is not set *)
  start_time : option Z;        (* [None]: the attribute is not set *)
  stats : gmap string Z;
  recent_entries : deque LogEntry;
  error_buffer : deque LogEntry;
  monitor_log : list MonitorRecord;
  errors_file : list ErrorRecord;
  stats_file : option StatsDoc;
  console : list printed;
  can_open : file -> bool
}.

Definition set_stats (f : gmap string Z -> gmap string Z) (w : World) : World :=
  {| running := running w; verbose := verbose w; start_time := start_time w;
     stats := f (stats w);
     recent_entries := recent_entries w; error_buffer := error_buffer w;
     monitor_log := monitor_log w; errors_file := errors_file w;
     stats_file := stats_file w; console := console w;
     can_open := can_open w |}.

Definition set_recent_entries (f : deque LogEntry -> deque LogEntry)
           (w : World) : World :=
  {| running := running w; verbose := verbose w; start_time := start_time w;
     stats := stats w;
     recent_entries := f (recent_entries w); error_buffer := error_buffer w;
     monitor_log := monitor_log w; errors_file := errors_file w;
     stats_file := stats_file w; console := console w;
     can_open := can_open w |}.

Definition set_error_buffer (f : deque LogEntry -> deque LogEntry)
           (w : World) : World :=
  {| running := running w; verbose := verbose w; start_time := start_time w;
     stats := stats w;
     recent_entries := recent_entries w; error_buffer := f (error_buffer w);
     monitor_log := monitor_log w; errors_file := errors_file w;
     stats_file := stats_file w; console := console w;
     can_open := can_open w |}.

Definition set_monitor_log (f : list MonitorRecord -> list MonitorRecord)
           (w : World) : World :=
  {| running := running w; verbose := verbose w; start_time := start_time w;
     stats := stats w;
     recent_entries := recent_entries w; error_buffer := error_buffer w;
     monitor_log := f (monitor_log w); errors_file := errors_file w;
     stats_file := stats_file w; console := console w;
     can_open := can_open w |}.

Definition set_errors_file (f : list ErrorRecord -> list ErrorRecord)
           (w : World) : World :=
  {| running := running w; verbose := verbose w; start_time := start_time w;
     stats := stats w;
     recent_entries := recent_entries w; error_buffer := error_buffer w;
     monitor_log := monitor_log w; errors_file := f (errors_file w);
     stats_file := stats_file w; console := console w;
     can_open := can_open w |}.

Definition set_stats_file (d : option StatsDoc) (w : World) : World :=
  {| running := running w; verbose := verbose w; start_time := start_time w;
     stats := stats w;
     recent_entries := recent_entries w; error_buffer := error_buffer w;
     monitor_log := monitor_log w; errors_file := errors_file w;
     stats_file := d; console := console w;
     can_open := can_open w |}.

Definition set_console (f : list printed -> list printed) (w : World) : World :=
  {| running := running w; verbose := verbose w; start_time := start_time w;
     stats := stats w;
     recent_entries := recent_entries w; error_buffer := error_buffer w;
     monitor_log := monitor_log w; errors_file := errors_file w;
     stats_file := stats_file w; console := f (console w);
     can_open := can_open w |}.

Definition set_running (b : bool) (w : World) : World :=
  {| running := b; verbose := verbose w; start_time := start_time w;
     stats := stats w;
     recent_entries := recent_entries w; error_buffer := error_buffer w;
     monitor_log := monitor_log w; errors_file := errors_file w;
     stats_file := stats_file w; console := console w;
     can_open := can_open w |}.

(** What the rest of the system does to the files between two steps of the
    monitor: only [can_open] is outside the monitor's control. *)
Definition set_can_open (f : file -> bool) (w : World) : World :=
  {| running := running w; verbose := verbose w; start_time := start_time w;
     stats := stats w;
     recent_entries := recent_entries w; error_buffer := error_buffer w;
     monitor_log := monitor_log w; errors_file := errors_file w;
     stats_file := stats_file w; console := console w;
     can_open := f |}.

(** Statements that read and write the world and may raise; what was written
    before an exception stays written. *)
Definition M (A : Type) : Type := World -> World * outcome A.

Definition ret {A} (a : A) : M A := fun w => (w, Ok a).

Definition bind {A B} (m : M A) (k : A -> M B) : M B := fun w =>
  match m w with
  | (w', Ok a) => k a w'
  | (w', Raise e) => (w', Raise e)
  | (w', IllTyped) => (w', IllTyped)
  end.

Definition lift {A} (o : outcome A) : M A := fun w => (w, o).
Definition update (f : World -> World) : M unit := fun w => (f w, Ok tt).
Definition read {A} (f : World -> A) : M A := fun w => (w, Ok (f w)).

(** [try: m except Exception as e: h e]. *)
Definition try_catch {A} (m : M A) (h : exn -> M A) : M A := fun w =>
  match m w with
  | (w', Raise e) => h e w'
  | r => r
  end.

Definition when (b : bool) (m : M unit) : M unit := if b then m else ret tt.

Notation "'do' x <- m ; k" := (bind m (fun x => k))
  (at level 10, x name, m at level 100, k at level 200).
Notation "m ;; k" := (bind m (fun _ => k))
  (at level 100, k at level 200, right associativity).

Local Close Scope char_scope.

(** ** [LogMonitor] *)

Module LogMonitor.

(** [__init__], over whatever the three files hold already. *)
Definition __init__ (ml : list MonitorRecord) (ef : list ErrorRecord)
           (sf : option StatsDoc) (can : file -> bool) : World :=
  {| running := false; verbose := None; start_time := None;
     stats := ∅;
     recent_entries := Deque.new 1000; error_buffer := Deque.new 100;
     monitor_log := ml; errors_file := ef; stats_file := sf;
     console := []; can_open := can |}.

(** [self.stats[k]] on a [defaultdict(int)]. *)
Definition counter (m : gmap string Z) (k : string) : Z := default 0%Z (m !! k).

(** [self.stats[k] += 1], on the dictionary and as a statement. *)
Definition add1 (k : string) (m : gmap string Z) : gmap string Z :=
  <[k := (counter m k + 1)%Z]> m.

Definition incr (k : string) : M unit := update (set_stats (add1 k)).

Definition print (p : printed) : M unit :=
  update (set_console (fun l => l ++ [p])).

(** [open(path, mode)] raises when the file cannot be opened. *)
Definition open (f : file) : M unit := fun w =>
  if can_open w f then (w, Ok tt) else (w, Raise OSError).

Definition error_data (entry : LogEntry) : ErrorRecord :=
  {| er_timestamp := timestamp entry; er_level := level entry;
     er_component := component entry; er_message := message entry;
     er_pid := pid entry; er_metadata := metadata entry |}.

Definition _log_error (entry : LogEntry) : M unit :=
  open ErrorsFile;;
  update (set_errors_file (fun l => l ++ [error_data entry])).

Definition log_data (entry : LogEntry) : MonitorRecord :=
  {| mr_timestamp := timestamp entry; mr_level := level entry;
     mr_component := component entry;
     mr_message := Py.take 200 (message entry);
     mr_pid := pid entry |}.

Definition _log_to_monitor (entry : LogEntry) : M unit :=
  open MonitorLog;;
  update (set_monitor_log (fun l => l ++ [log_data entry])).

(** [entry.level in ['ERROR', 'FATAL']]. *)
Definition level_in (lvl : string) (l : list string) : bool :=
  existsb (String.eqb lvl) l.

(** The condition of the [if] under "Handle errors"; [or] does not look at
    the metadata when the level decides. *)
Definition is_error (entry : LogEntry) : M bool :=
  if level_in (level entry) ["ERROR"; "FATAL"] then ret true
  else match metadata entry with
       | Some md => ret (has_error md)
       | None => lift (Raise AttributeError)
       end.

Definition is_verbose (w : World) : bool :=
  match verbose w with Some true => true | _ => false end.

Definition _process_log_line (now : datetime) (line : string) : M unit :=
  if Py.is_empty line then ret tt
  else
    try_catch
      (do entry <- lift (LogParser.parse_line now line);
       update (set_recent_entries (Deque.append entry));;
       incr "total_lines";;
       incr ("level_" +:+ level entry);;
       incr ("component_" +:+ component entry);;
       do err <- is_error entry;
       when err
         (update (set_error_buffer (Deque.append entry));;
          incr "total_errors";;
          _log_error entry);;
       _log_to_monitor entry;;
       do v <- read is_verbose;
       when v (print (Echo (timestamp entry) (level entry) (component entry)
                           (Py.take 100 (message entry)))))
      (fun e => print (ErrorProcessing e);; print (ErrorLine line)).

(** [_save_current_stats]; [now] is [datetime.now()] and [t] is
    [time.time()], in whole seconds. *)
Definition _save_current_stats (now : datetime) (t : Z) : M unit :=
  do st <- read stats;
  do t0 <- read start_time;
  let stats_data :=
    {| sd_counters := st; sd_timestamp := now;
       sd_uptime_seconds := match t0 with Some t0 => (t - t0)%Z | None => 0%Z end |} in
  open StatsFile;;
  update (set_stats_file (Some stats_data)).

(** One turn of the stats thread: what the other threads and the rest of the
    system did to the world while it slept, and the clock when it wakes. *)
Record tick := {
  while_asleep : World -> World;
  tick_now : datetime;
  tick_time : Z
}.

(** [_save_stats_periodically], run over the turns observed so far.  The
    second component is [None] while the thread is still in its loop, and
    otherwise how the function ended: [Ok tt] when the loop condition was
    false, [Raise e] when an exception left the loop. *)
Fixpoint _save_stats_periodically (ticks : list tick) (w : World)
  : World * option (outcome unit) :=
  match ticks with
  | [] => (w, None)
  | t :: rest =>
      if running w then
        match _save_current_stats (tick_now t) (tick_time t) (while_asleep t w) with
        | (w', Ok _) => _save_stats_periodically rest w'
        | (w', o) => (w', Some o)
        end
      else (w, Some (Ok tt))
  end.

(** [self.stats['active_processes'] = n] in [_monitor_processes]. *)
Definition set_active_processes (n : Z) : M unit :=
  update (set_stats (fun m => <["active_processes" := n]> m)).

End LogMonitor.

(** ** [ProcessMonitor] *)

Module ProcessMonitor.

Section Scan.

(** Python's [float]: the type, [float(s)] on a [str] ([None] when it raises
    [ValueError]), and the conversion [mem * 1024 / 100]. *)
Variable float : Type.
Variable parse_float : string -> option float.
Variable rough_mb : float -> float.

Record ProcessInfo := {
  pid : Z;
  ppid : Z;
  command : string;
  started : datetime;
  cpu_percent : float;
  memory_mb : float;
  status : string
}.

Definition set_status (st : string) (p : ProcessInfo) : ProcessInfo :=
  {| pid := pid p; ppid := ppid p; command := command p; started := started p;
     cpu_percent := cpu_percent p; memory_mb := memory_mb p; status := st |}.

(** [parts[i]]. *)
Definition index (parts : list string) (i : nat) : outcome string :=
  match parts !! i with
  | Some x => Ok x
  | None => Raise IndexError
  end.

Definition float_of (s : string) : outcome float :=
  match parse_float s with
  | Some x => Ok x
  | None => Raise ValueError
  end.

(** [s.isdigit()]. *)
Fixpoint all_isdigit (s : string) : bool :=
  match s with
  | EmptyString => true
  | String c s' => Py.isdigit_char c && all_isdigit s'
  end.

Definition isdigit (s : string) : bool := negb (Py.is_empty s) && all_isdigit s.

Definition is_row_error (e : exn) : bool :=
  match e with ValueError | IndexError => true | _ => false end.

(** The body of the loop over the lines of [ps aux]: [Some p] when the line
    adds [p] to [processes], [None] when it adds nothing. *)
Definition scan_line (now : datetime) (line : string)
  : outcome (option ProcessInfo) :=
  if Py.contains "warp" (Py.lower line) && Py.contains "preview" (Py.lower line)
  then
    let parts := Py.split line in
    if Nat.leb 11 (length parts) then
      try_except
        (p1 ← index parts 1;
         pid_ ← int p1;
         p2 ← index parts 2;
         cpu ← float_of p2;
         p3 ← index parts 3;
         mem ← float_of p3;
         let command_ := Py.join " " (drop 10 parts) in
         ppid_ ← (if isdigit p2 then int p2 else Ok 0%Z);
         Ok (Some {| pid := pid_; ppid := ppid_; command := command_;
                     started := now; cpu_percent := cpu;
                     memory_mb := rough_mb mem; status := "running" |}))
        is_row_error
        (fun _ => Ok None)
    else Ok None
  else Ok None.

Fixpoint scan_lines (now : datetime) (lines : list string)
  : outcome (list ProcessInfo) :=
  match lines with
  | [] => Ok []
  | line :: rest =>
      r ← scan_line now line;
      ps ← scan_lines now rest;
      Ok (match r with Some p => p :: ps | None => ps end)
  end.

(** The first loop under the lock: every pid of the table that is not among
    the current ones gets the status [terminated]. *)
Definition mark_terminated (current_pids : gset Z) (keys : list Z)
           (table : gmap Z ProcessInfo) : gmap Z ProcessInfo :=
  foldl (fun t k => if bool_decide (k ∈ current_pids) then t
                    else alter (set_status "terminated") k t)
        table keys.

(** The second loop: [self.processes[process.pid] = process]. *)
Definition store_all (processes : list ProcessInfo)
           (table : gmap Z ProcessInfo) : gmap Z ProcessInfo :=
  foldl (fun t p => <[pid p := p]> t) table processes.

(** [scan_processes]: [ps] is what [subprocess.run] gives, its [stdout] or
    the exception it raises; the result is the new table and the list
    returned.  Any exception ends in [return []]. *)
Definition scan_processes (now : datetime) (ps : outcome string)
           (table : gmap Z ProcessInfo)
  : gmap Z ProcessInfo * list ProcessInfo :=
  match (stdout ← ps; scan_lines now (Py.split_on "010"%char stdout)) with
  | Ok processes =>
      let current_pids : gset Z := list_to_set (pid <$> processes) in
      let table1 := mark_terminated current_pids (map_to_list table).*1 table in
      (store_all processes table1, processes)
  | _ => (table, [])
  end.

End Scan.

Arguments pid {float} p.
Arguments ppid {float} p.
Arguments command {float} p.
Arguments started {float} p.
Arguments cpu_percent {float} p.
Arguments memory_mb {float} p.
Arguments status {float} p.
Arguments set_status {float} st p.
Arguments float_of {float} parse_float s.
Arguments scan_line {float} parse_float rough_mb now line.
Arguments scan_lines {float} parse_float rough_mb now lines.
Arguments mark_terminated {float} current_pids keys table.
Arguments store_all {float} processes table.
Arguments scan_processes {float} parse_float rough_mb now ps table.

End ProcessMonitor.

(** ** The file tailer, [LogMonitor._monitor_logs] *)

Module Tail.

(** The file system as far as the log path goes: which file (by inode
    number) the path names now, if any, and what each file holds. *)
Record FS := { target : option nat; data : nat -> string }.

(** The open file object [f]: the file it was opened on and its position. *)
Record Handle := { inode : nat; pos : nat }.

(** The text of one line, up to and including the newline or up to the end
    of the data. *)
Fixpoint first_line (s : string) : string :=
  match s with
  | EmptyString => EmptyString
  | String c s' =>
      if Ascii.eqb c "010"%char then String c EmptyString
      else String c (first_line s')
  end.

(** [f.readline()]. *)
Definition readline (fs : FS) (h : Handle) : string * Handle :=
  let line := first_line (Py.drop (pos h) (data fs (inode h))) in
  (line, {| inode := inode h; pos := pos h + String.length line |}).

(** [open(log_file, 'r')] and [f.seek(0, 2)]. *)
Definition open_at_end (fs : FS) : option Handle :=
  match target fs with
  | Some i => Some {| inode := i; pos := String.length (data fs i) |}
  | None => None
  end.

(** The body of the [while self.running] loop; an empty [line] leads to
    [time.sleep], which changes nothing. *)
Definition poll (now : datetime) (fs : FS) (h : Handle) : M Handle :=
  let (line, h') := readline fs h in
  if Py.is_empty line then ret h'
  else LogMonitor._process_log_line now (Py.strip line);; ret h'.

(** What one turn of the loop sees: the changes made by the rest of the
    system since the previous turn, the clock and the file system. *)
Record turn := {
  since_last : World -> World;
  turn_now : datetime;
  turn_fs : FS
}.

Fixpoint tail_loop (turns : list turn) (h : Handle) : M Handle :=
  match turns with
  | [] => ret h
  | t :: rest =>
      update (since_last t);;
      do r <- read running;
      if r then (do h' <- poll (turn_now t) (turn_fs t) h; tail_loop rest h')
      else ret h
  end.

(** [_monitor_logs]: [fs0] is the file system when the function starts. *)
Definition _monitor_logs (fs0 : FS) (turns : list turn) : M (option Handle) :=
  match open_at_end fs0 with
  | None => LogMonitor.print LogFileNotFound;; ret None
  | Some h => do h' <- tail_loop turns h; ret (Some h')
  end.

End Tail.

(** * Specification-side definitions *)

(** ** What a pattern matches, without reference to the matcher *)

Module ReSpec.
Import Re.

Fixpoint all_in (ic : bool) (cs : charset) (w : string) : bool :=
  match w with
  | EmptyString => true
  | String c w' => charset_match ic cs c && all_in ic cs w'
  end.

Definition within (n : nat) (hi : option nat) : Prop :=
  match hi with Some h => n <= h | None => True end.

(** [matches ic r w g g']: the text [w] is matched by [r], and the groups go
    from [g] to [g']. *)
Inductive matches (ic : bool) : regex -> string -> groups -> groups -> Prop :=
| m_eps g : matches ic Eps EmptyString g g
| m_one cs c g :
    charset_match ic cs c = true ->
    matches ic (One cs) (String c EmptyString) g g
| m_rep cs lo hi w g :
    all_in ic cs w = true -> lo <= String.length w ->
    within (String.length w) hi ->
    matches ic (Rep cs lo hi) w g g
| m_seq r1 r2 w1 w2 g g1 g2 :
    matches ic r1 w1 g g1 -> matches ic r2 w2 g1 g2 ->
    matches ic (Seq r1 r2) (w1 +:+ w2) g g2
| m_alt_l r1 r2 w g g' :
    matches ic r1 w g g' -> matches ic (Alt r1 r2) w g g'
| m_alt_r r1 r2 w g g' :
    matches ic r2 w g g' -> matches ic (Alt r1 r2) w g g'
| m_opt_some r w g g' :
    matches ic r w g g' -> matches ic (Opt r) w g g'
| m_opt_none r g : matches ic (Opt r) EmptyString g g
| m_grp i r w g g' :
    matches ic r w g g' -> matches ic (Grp i r) w g ((i, w) :: g').

(** Some part of [line] is matched by [r]. *)
Definition occurs (ic : bool) (r : regex) (line : string) : Prop :=
  exists pre w post g,
    line = pre +:+ w +:+ post /\ matches ic r w [] g.

(** A pattern without capture groups. *)
Fixpoint group_free (r : regex) : bool :=
  match r with
  | Eps | One _ | Rep _ _ _ => true
  | Seq r1 r2 | Alt r1 r2 => group_free r1 && group_free r2
  | Opt r1 => group_free r1
  | Grp _ _ => false
  end.

(** The alternatives of the level pattern. *)
Definition level_names : regex :=
  Alts [Str "DEBUG"; Str "INFO"; Str "WARN"; Str "ERROR"; Str "TRACE";
        Str "FATAL"].

End ReSpec.

(** ** Runs of the monitor and the notions the properties speak about *)

Module Spec.
Import LogMonitor.

(** What happens to a running monitor, one thing at a time: the tail loop
    hands over a line, the scan thread stores its count, the stats thread
    saves, or the files become (un)writable. *)
Inductive event :=
| NewLine (now : datetime) (line : string)
| Scanned (n : Z)
| Flushed (now : datetime) (t : Z)
| Environment (can : file -> bool).

Definition step (w : World) (ev : event) : World :=
  match ev with
  | NewLine now line => (_process_log_line now line w).1
  | Scanned n => (set_active_processes n w).1
  | Flushed now t => (_save_current_stats now t w).1
  | Environment can => set_can_open can w
  end.

Definition run (evs : list event) (w : World) : World := foldl step w evs.

(** The sum of all [level_<LEVEL>] counters. *)
Definition is_level_key (k : string) : bool := Py.startswith "level_" k.

Definition level_sum (m : gmap string Z) : Z :=
  map_fold (fun k v acc => if is_level_key k then (v + acc)%Z else acc) 0%Z m.

(** The entries handed to the aggregation path by a run, in order. *)
Definition entry_of (ev : event) : option LogEntry :=
  match ev with
  | NewLine now line =>
      if Py.is_empty line then None
      else match LogParser.parse_line now line with
           | Ok e => Some e
           | _ => None
           end
  | _ => None
  end.

Definition entries_of (evs : list event) : list LogEntry := omap entry_of evs.

(** The two triggers: the level is ERROR or FATAL, or the flag is set. *)
Definition flagged (e : LogEntry) : bool :=
  match metadata e with Some md => has_error md | None => false end.

Definition triggers (e : LogEntry) : bool :=
  String.eqb (level e) "ERROR" || String.eqb (level e) "FATAL" || flagged e.

Definition errors_of (evs : list event) : list LogEntry :=
  List.filter triggers (entries_of evs).



(** The last [n] elements of a list. *)
Definition last_n {A} (n : nat) (l : list A) : list A := drop (length l - n) l.

(** The invariant of the counter table. *)
Definition counted (w : World) : Prop :=
  counter (stats w) "total_lines" = level_sum (stats w).

(** What the two buffers hold after a run. *)
Definition buffered (evs : list event) (w : World) : Prop :=
  Deque.maxlen (recent_entries w) = 1000
  /\ Deque.maxlen (error_buffer w) = 100
  /\ Deque.items (recent_entries w) = last_n 1000 (entries_of evs)
  /\ Deque.items (error_buffer w) = last_n 100 (errors_of evs).

End Spec.

(** ** Concrete inputs *)

Module Inputs.
Import Spec.

Definition clock0 : datetime :=
  {| year := 2025; month := 1; day := 1; hour := 10; minute := 0;
     second := 0; microsecond := 0 |}.

(** 1500 lines, the i-th carrying its number as process id. *)
Definition numbered_line (i : nat) : string :=
  "[INFO] [" +:+ NilEmpty.string_of_uint (Nat.to_uint (S i)) +:+ ":main] tick".

Definition lines1500 : list event :=
  map (fun i => NewLine clock0 (numbered_line i)) (seq 0 1500).

(** A stand-in for [float] that keeps the text it was read from. *)
Definition text_float (s : string) : option string := Some s.

Definition ps_header : string :=
  "USER PID %CPU %MEM VSZ RSS TT STAT STARTED TIME COMMAND".

Definition ps_preview (p : string) : string :=
  "me " +:+ p +:+ " 0.0 0.1 1 2 ?? S 10:00AM 0:00.01 /Volumes/Warp/WarpPreview.app/Contents/MacOS/preview".

Definition newline : string := String "010"%char "".

(** [ps aux] showing one preview process, pid 10, and then none. *)
Definition ps_one : string := ps_header +:+ newline +:+ ps_preview "10" +:+ newline.



(** Two turns of the stats thread: the stats file cannot be opened at the
    first and can be again at the second. *)
Definition outage_then_fine : list LogMonitor.tick :=
  [ {| LogMonitor.while_asleep := set_can_open (fun _ => false);
       LogMonitor.tick_now := clock0; LogMonitor.tick_time := 60%Z |};
    {| LogMonitor.while_asleep := set_can_open (fun _ => true);
       LogMonitor.tick_now := clock0; LogMonitor.tick_time := 120%Z |} ].

Definition monitoring : World :=
  set_running true (LogMonitor.__init__ [] [] None (fun _ => true)).

End Inputs.

(** * The rest of the monitor *)

(** ** [stop_monitoring], [get_summary] and the scan thread *)

Module LogMonitor2.
Import LogMonitor.



Record Summary := {
  su_stats : gmap string Z;
  su_recent_errors : nat;
  su_active_processes : Z;
  su_monitoring_status : string
}.

(** [get_summary]; [stats.get(k, 0)] reads like [stats[k]] and stores
    nothing. *)
Definition get_summary (w : World) : Summary :=
  {| su_stats := stats w;
     su_recent_errors := Deque.len (error_buffer w);
     su_active_processes := default 0%Z (stats w !! "active_processes");
     su_monitoring_status := if running w then "running" else "stopped" |}.

Section ScanThread.
Context {float : Type} (parse_float : string -> option float)
        (rough_mb : float -> float).






End ScanThread.

End LogMonitor2.

(** ** Notions used by the further properties *)

Module Spec2.
Import LogMonitor Spec.

(** A [datetime] that the constructor accepts. *)
Definition valid_datetime (d : datetime) : Prop :=
  (1 <= year d <= 9999 /\ 1 <= month d <= 12
   /\ 1 <= day d <= days_in_month (year d) (month d)
   /\ 0 <= hour d <= 23 /\ 0 <= minute d <= 59 /\ 0 <= second d <= 59
   /\ 0 <= microsecond d <= 999999)%Z.

(** No character of [s] is white space at either end. *)
Definition stripped (s : string) : Prop := Py.strip s = s.

(** [s] is empty or starts with a character that is not white space. *)
Definition no_space_first (s : string) : Prop :=
  match s with
  | EmptyString => True
  | String c _ => Py.isspace c = false
  end.

(** [s] starts with a bracket pair around a text that is not empty and has
    no closing bracket. *)
Definition starts_pair (s : string) : Prop :=
  exists x rest,
    s = "[" +:+ x +:+ "]" +:+ rest /\ x <> "" /\
    ReSpec.all_in false (Re.None_of ["]"%char]) x = true.

(** [s] has such a bracket pair somewhere. *)
Definition has_pair (s : string) : Prop :=
  exists pre t, s = pre +:+ t /\ starts_pair t.

(** How often the character [c] occurs in [s]. *)
Fixpoint occurrences (c : ascii) (s : string) : nat :=
  match s with
  | EmptyString => 0
  | String x s' => (if Ascii.eqb x c then 1 else 0) + occurrences c s'
  end.

(** An upper bound on the occurrences of [c] in a text that [r] matches
    ignoring case; [None] when there is none. *)
Definition opt_add (a b : option nat) : option nat :=
  match a, b with Some x, Some y => Some (x + y) | _, _ => None end.

Definition opt_max (a b : option nat) : option nat :=
  match a, b with Some x, Some y => Some (Nat.max x y) | _, _ => None end.

Fixpoint max_occurrences (c : ascii) (r : Re.regex) : option nat :=
  match r with
  | Re.Eps => Some 0
  | Re.One cs => Some (if Re.charset_match true cs c then 1 else 0)
  | Re.Rep cs _ hi => if Re.charset_match true cs c then hi else Some 0
  | Re.Seq r1 r2 => opt_add (max_occurrences c r1) (max_occurrences c r2)
  | Re.Alt r1 r2 => opt_max (max_occurrences c r1) (max_occurrences c r2)
  | Re.Opt r1 => max_occurrences c r1
  | Re.Grp _ r1 => max_occurrences c r1
  end.

(** The sum of the counters whose key satisfies [p]. *)
Definition keyed_sum (p : string -> bool) (m : gmap string Z) : Z :=
  map_fold (fun k v acc => if p k then (v + acc)%Z else acc) 0%Z m.

(** The sum of all [component_<NAME>] counters. *)
Definition is_component_key (k : string) : bool := Py.startswith "component_" k.

Definition component_sum (m : gmap string Z) : Z := keyed_sum is_component_key m.

(** By how much [_process_log_line] raises the counter [k] for entry [e]. *)
Definition raised (e : LogEntry) (k : string) : Z :=
  ((if decide (k = "total_lines") then 1 else 0)
   + (if decide (k = "level_" +:+ level e) then 1 else 0)
   + (if decide (k = "component_" +:+ component e) then 1 else 0)
   + (if triggers e then if decide (k = "total_errors") then 1 else 0 else 0))%Z.

(** During the run every file can be opened. *)
Definition always_writable (evs : list event) : Prop :=
  forall can, In (Environment can) evs -> forall f, can f = true.

(** What the console shows for an entry: the complaint about a failed write
    to the errors file or, failing that, to the monitor log, or else the echo
    of the entry when [verbose] is on. *)
Definition shown (line : string) (e : LogEntry) (w : World) : list printed :=
  if (triggers e && negb (can_open w ErrorsFile))
     || negb (can_open w MonitorLog)
  then [ErrorProcessing OSError; ErrorLine line]
  else if is_verbose w
       then [Echo (timestamp e) (level e) (component e)
                  (Py.take 100 (message e))]
       else [].

(** The count stored by the last scan of a run, 0 when there was none. *)
Definition last_scanned (evs : list event) : Z :=
  foldl (fun acc ev => match ev with Scanned n => n | _ => acc end) 0%Z evs.

(** Lines, each followed by a newline. *)
Definition newline_char : ascii := "010"%char.

Fixpoint with_newlines (ls : list string) : string :=
  match ls with
  | [] => ""
  | l :: ls' => l +:+ String newline_char (with_newlines ls')
  end.



(** A turn of the tail loop in which nothing else happened. *)
Definition quiet_turn (now : datetime) (fs : Tail.FS) : Tail.turn :=
  {| Tail.since_last := fun w => w; Tail.turn_now := now; Tail.turn_fs := fs |}.

End Spec2.

Module Inputs2.
Import Spec Inputs.

(** Three lines: an error by its level, an error by its vocabulary, and a
    line that is no error. *)
Definition three_lines : list event :=
  [NewLine clock0 "2025-01-01T10:00:00Z [FATAL] [core] out of memory";
   NewLine clock0 "connection failed";
   NewLine clock0 "[INFO] [ui] window opened"].

(** The errors file cannot be opened, the other files can. *)
Definition errors_file_locked (f : file) : bool :=
  match f with ErrorsFile => false | _ => true end.

(** The monitor is stopped while the stats thread sleeps. *)
Definition stopped_while_asleep : LogMonitor.tick :=
  {| LogMonitor.while_asleep := set_running false;
     LogMonitor.tick_now := clock0; LogMonitor.tick_time := 60%Z |}.

Definition two_flushes : list LogMonitor.tick :=
  [ {| LogMonitor.while_asleep := fun w => w;
       LogMonitor.tick_now := clock0; LogMonitor.tick_time := 60%Z |};
    {| LogMonitor.while_asleep := fun w => w;
       LogMonitor.tick_now := clock0; LogMonitor.tick_time := 120%Z |} ].

(** A log file with two lines when the monitor starts, and the same file
    after three more lines were written, one of them blank. *)
Definition fs_before : Tail.FS :=
  {| Tail.target := Some 7;
     Tail.data := fun _ => Spec2.with_newlines ["old one"; "old two"] |}.





End Inputs2.

(** * Properties *)

Local Arguments String.append !_ _ / : simpl nomatch.

(** ** Strings *)

Module PyFacts.

Lemma str_app_nil_r (s : string) : s +:+ "" = s.
Proof. induction s as [|c s IH]; simpl; [reflexivity | now rewrite IH]. Qed.

Lemma str_app_assoc (a b c : string) : (a +:+ b) +:+ c = a +:+ (b +:+ c).
Proof. induction a as [|x a IH]; [reflexivity | simpl; f_equal; exact IH]. Qed.

Lemma str_length_app (a b : string) :
  String.length (a +:+ b) = String.length a + String.length b.
Proof. induction a as [|x a IH]; [reflexivity | simpl; f_equal; exact IH]. Qed.

Lemma str_take_app (a b : string) : Py.take (String.length a) (a +:+ b) = a.
Proof. induction a as [|x a IH]; [now destruct b | simpl; f_equal; exact IH]. Qed.


Lemma is_empty_true (s : string) : Py.is_empty s = true <-> s = "".
Proof. destruct s; simpl; split; congruence. Qed.

End PyFacts.

(** ** The matcher against the declarative meaning of patterns *)

Module ReFacts.
Import Re ReSpec PyFacts.

Lemma consumed_app (w s' : string) : consumed (w +:+ s') s' = w.
Proof.
  unfold consumed. rewrite str_length_app.
  replace (String.length w + String.length s' - String.length s')
    with (String.length w) by lia.
  apply str_take_app.
Qed.

Section Sound.
Context {A : Type} (ic : bool).

Lemma rep_match_sound cs s : forall lo hi (k : string -> option A) x,
  rep_match ic cs lo hi s k = Some x ->
  exists w s', s = w +:+ s' /\ all_in ic cs w = true /\
               lo <= String.length w /\ within (String.length w) hi /\
               k s' = Some x.
Proof.
  induction s as [|c s IH]; intros lo hi k x H; simpl in H.
  - destruct (Nat.eqb_spec lo 0) as [->|]; [|discriminate].
    exists "", "". repeat split; simpl; auto. destruct hi; simpl; lia.
  - assert (Hstop : (if Nat.eqb lo 0 then k (String c s) else None) = Some x ->
                    exists w s', String c s = w +:+ s' /\ all_in ic cs w = true /\
                      lo <= String.length w /\ within (String.length w) hi /\
                      k s' = Some x).
    { destruct (Nat.eqb_spec lo 0) as [->|]; [|discriminate]. intros Hk.
      exists "", (String c s). repeat split; simpl; auto.
      destruct hi; simpl; lia. }
    destruct (charset_match ic cs c) eqn:Hc; simpl in H; [|auto].
    destruct (more hi) eqn:Hm; [|auto].
    destruct (rep_match ic cs (Nat.pred lo) (option_map Nat.pred hi) s k)
      as [y|] eqn:Hr; [|auto].
    inversion H; subst y; clear H.
    destruct (IH _ _ _ _ Hr) as (w & s' & -> & Hall & Hlo & Hhi & Hk).
    exists (String c w), s'. simpl. rewrite Hc, Hall.
    repeat split; auto; [lia|].
    destruct hi as [[|h]|]; simpl in *; try discriminate; auto; lia.
Qed.

Lemma rep_match_complete cs s : forall lo hi (k : string -> option A),
  rep_match ic cs lo hi s k = None ->
  forall w s', s = w +:+ s' -> all_in ic cs w = true ->
               lo <= String.length w -> within (String.length w) hi ->
               k s' = None.
Proof.
  induction s as [|c s IH]; intros lo hi k H w s' Hs Hall Hlo Hhi; simpl in H.
  - destruct w; [|discriminate]. simpl in *. subst s'.
    replace lo with 0 in H by lia. exact H.
  - destruct w as [|c' w].
    + simpl in *. subst s'. replace lo with 0 in H by lia. simpl in H.
      destruct (charset_match ic cs c && more hi);
        [destruct (rep_match ic cs 0 (option_map Nat.pred hi) s k)|];
        congruence.
    + simpl in Hs. inversion Hs; subst c' s; clear Hs.
      simpl in Hall. apply andb_prop in Hall as [Hc Hall]. rewrite Hc in H.
      assert (Hm : more hi = true).
      { destruct hi as [[|h]|]; simpl in *; auto; lia. }
      rewrite Hm in H. simpl in H.
      destruct (rep_match ic cs (Nat.pred lo) (option_map Nat.pred hi)
                          (w +:+ s') k) as [y|] eqn:Hr;
        [destruct (Nat.eqb lo 0); discriminate|].
      eapply IH; eauto; simpl in *; [lia|].
      destruct hi as [[|h]|]; simpl in *; auto; lia.
Qed.

Lemma re_match_sound r : forall s g (k : string -> groups -> option A) x,
  re_match ic r s g k = Some x ->
  exists w s' g', s = w +:+ s' /\ matches ic r w g g' /\ k s' g' = Some x.
Proof.
  induction r as [|cs|cs lo hi|r1 IH1 r2 IH2|r1 IH1 r2 IH2|r IH|i r IH];
    intros s g k x H; simpl in H.
  - exists "", s, g. repeat split; auto. constructor.
  - destruct s as [|c s]; [discriminate|].
    destruct (charset_match ic cs c) eqn:Hc; [|discriminate].
    exists (String c ""), s, g. repeat split; auto. now constructor.
  - apply rep_match_sound in H as (w & s' & -> & Hall & Hlo & Hhi & Hk).
    exists w, s', g. repeat split; auto. now constructor.
  - apply IH1 in H as (w1 & s1 & g1 & -> & M1 & H).
    apply IH2 in H as (w2 & s2 & g2 & -> & M2 & H).
    exists (w1 +:+ w2), s2, g2. rewrite str_app_assoc. repeat split; auto.
    econstructor; eauto.
  - destruct (re_match ic r1 s g k) as [y|] eqn:H1.
    + inversion H; subst y. apply IH1 in H1 as (w & s' & g' & -> & M & Hk).
      exists w, s', g'. repeat split; auto. now apply m_alt_l.
    + apply IH2 in H as (w & s' & g' & -> & M & Hk).
      exists w, s', g'. repeat split; auto. now apply m_alt_r.
  - destruct (re_match ic r s g k) as [y|] eqn:H1.
    + inversion H; subst y. apply IH in H1 as (w & s' & g' & -> & M & Hk).
      exists w, s', g'. repeat split; auto. now apply m_opt_some.
    + exists "", s, g. repeat split; auto. apply m_opt_none.
  - apply IH in H as (w & s' & g' & -> & M & Hk).
    rewrite consumed_app in Hk.
    exists w, s', ((i, w) :: g'). repeat split; auto. now constructor.
Qed.

Lemma re_match_complete r w g g' :
  matches ic r w g g' ->
  forall s' (k : string -> groups -> option A),
    re_match ic r (w +:+ s') g k = None -> k s' g' = None.
Proof.
  induction 1 as [g|cs c g Hc|cs lo hi w g Hall Hlo Hhi
                 |r1 r2 w1 w2 g g1 g2 _ IH1 _ IH2
                 |r1 r2 w g g' _ IH|r1 r2 w g g' _ IH
                 |r w g g' _ IH|r g|i r w g g' _ IH];
    intros s' k H; simpl in H.
  - exact H.
  - now rewrite Hc in H.
  - eapply (rep_match_complete _ _ _ _ _ H); eauto.
  - rewrite str_app_assoc in H. apply IH1 in H. now apply IH2 in H.
  - destruct (re_match ic r1 (w +:+ s') g k) eqn:E; [discriminate|].
    now apply IH in E.
  - destruct (re_match ic r1 (w +:+ s') g k) eqn:E; [discriminate|].
    now apply IH in H.
  - destruct (re_match ic r (w +:+ s') g k) eqn:E; [discriminate|].
    now apply IH in E.
  - destruct (re_match ic r s' g k) eqn:E; [discriminate|]. exact H.
  - apply IH in H. now rewrite consumed_app in H.
Qed.

End Sound.

End ReFacts.

Module SearchFacts.
Import Re ReSpec PyFacts ReFacts.

Lemma match_here_sound ic r s n g :
  match_here ic r s = Some (n, g) ->
  exists w s', s = w +:+ s' /\ matches ic r w [] g /\ n = String.length w.
Proof.
  unfold match_here. intros H.
  apply re_match_sound in H as (w & s' & g' & -> & M & H).
  inversion H; subst. exists w, s'. repeat split; auto.
  rewrite str_length_app. lia.
Qed.

Lemma match_here_complete ic r w s' g :
  matches ic r w [] g -> match_here ic r (w +:+ s') <> None.
Proof.
  intros M H. unfold match_here in H.
  now apply (re_match_complete ic r w [] g M) in H.
Qed.

Lemma search_from_sound ic r s : forall p m,
  search_from ic r p s = Some m ->
  exists pre w post,
    s = pre +:+ w +:+ post /\ matches ic r w [] (m_groups m) /\
    m_start m = p + String.length pre /\ m_len m = String.length w.
Proof.
  induction s as [|c s IH]; intros p m H; simpl in H.
  - destruct (match_here ic r "") as [[n g]|] eqn:E; [|discriminate].
    inversion H; subst; clear H.
    apply match_here_sound in E as (w & s' & Hs & M & ->).
    exists "", w, s'. simpl. repeat split; auto.
  - destruct (match_here ic r (String c s)) as [[n g]|] eqn:E.
    + inversion H; subst; clear H.
      apply match_here_sound in E as (w & s' & Hs & M & ->).
      exists "", w, s'. simpl. repeat split; auto.
    + apply IH in H as (pre & w & post & -> & M & Hst & Hl).
      exists (String c pre), w, post. simpl. repeat split; auto. lia.
Qed.

Lemma search_from_complete ic r pre : forall p w post g,
  matches ic r w [] g ->
  search_from ic r p (pre +:+ w +:+ post) <> None.
Proof.
  induction pre as [|c pre IH]; intros p w post g M.
  - simpl. pose proof (match_here_complete ic r w post g M) as Hm.
    destruct (w +:+ post); simpl;
      destruct (match_here ic r _) as [[n g']|]; congruence.
  - simpl. destruct (match_here ic r _) as [[n g']|]; [congruence|].
    now apply IH with (g := g).
Qed.

(** [search] finds a match exactly when the pattern occurs in the line. *)
Lemma search_None ic r line : search ic r line = None <-> ~ occurs ic r line.
Proof.
  split.
  - intros H (pre & w & post & g & -> & M).
    now apply (search_from_complete ic r pre 0 w post g M).
  - intros H. destruct (search ic r line) as [m|] eqn:E; [|reflexivity].
    exfalso. apply H. apply search_from_sound in E as (pre & w & post & -> & M & _).
    now exists pre, w, post, (m_groups m).
Qed.

Lemma search_Some ic r line m :
  search ic r line = Some m ->
  exists pre w post,
    line = pre +:+ w +:+ post /\ matches ic r w [] (m_groups m) /\
    m_start m = String.length pre /\ m_len m = String.length w.
Proof. intros H. now apply search_from_sound in H. Qed.

End SearchFacts.

(** ** The parser never raises *)

Module ParserFacts.
Import Re ReSpec PyFacts ReFacts SearchFacts LogParser.

(** Inversion of a derivation along the fixed spine of a pattern. *)
Ltac spine :=
  repeat match goal with
    | H : matches _ (Seq _ _) _ _ _ |- _ => inversion H; clear H; subst
    | H : matches _ (Grp _ _) _ _ _ |- _ => inversion H; clear H; subst
    | H : matches _ (One _) _ _ _ |- _ => inversion H; clear H; subst
    | H : matches _ (Rep _ _ _) _ _ _ |- _ => inversion H; clear H; subst
    | H : matches _ Eps _ _ _ |- _ => inversion H; clear H; subst
    end.

Lemma timestamp_group ic w g :
  matches ic PATTERNS_timestamp w [] g -> get_group 1 g = Some w.
Proof. unfold PATTERNS_timestamp. intros H. inversion H; subst. reflexivity. Qed.

Lemma group_free_same ic r w g g' :
  matches ic r w g g' -> group_free r = true -> g' = g.
Proof.
  induction 1; simpl; intros F; try apply andb_prop in F as [F1 F2];
    try discriminate; auto.
  rewrite IHmatches2, IHmatches1; auto.
Qed.

Lemma chr_only ic (a c : ascii) :
  Py.lower_char a = a -> (forall b, Py.lower_char b = a -> b = a) ->
  charset_match ic (Chr a) c = true -> c = a.
Proof.
  intros Ha Hb H. simpl in H. unfold chr_eq in H. destruct ic.
  - rewrite Ha in H. apply Ascii.eqb_eq in H. symmetry in H. now apply Hb.
  - apply Ascii.eqb_eq in H. congruence.
Qed.

Lemma lower_bracket_l b : Py.lower_char b = "["%char -> b = "["%char.
Proof. destruct b as [[] [] [] [] [] [] [] []]; vm_compute; congruence. Qed.

Lemma lower_bracket_r b : Py.lower_char b = "]"%char -> b = "]"%char.
Proof. destruct b as [[] [] [] [] [] [] [] []]; vm_compute; congruence. Qed.

Ltac brackets :=
  repeat match goal with
    | H : charset_match _ (Chr "[") _ = true |- _ =>
        apply chr_only in H; [subst | reflexivity | exact lower_bracket_l]
    | H : charset_match _ (Chr "]") _ = true |- _ =>
        apply chr_only in H; [subst | reflexivity | exact lower_bracket_r]
    end.

Lemma level_group ic w g :
  matches ic PATTERNS_level w [] g ->
  exists x, get_group 1 g = Some x /\ w = "[" +:+ x +:+ "]" /\
            matches ic level_names x [] [].
Proof.
  cbv [PATTERNS_level Cat lit]. intros H. spine. brackets.
  match goal with H : matches _ _ ?x [] ?g |- _ =>
    pose proof (group_free_same _ _ _ _ _ H eq_refl) as ->; exists x end.
  repeat split; auto.
Qed.

Lemma component_group ic w g :
  matches ic PATTERNS_component w [] g ->
  exists x, get_group 1 g = Some x /\ w = "[" +:+ x +:+ "]" /\
            all_in ic (None_of ["]"%char]) x = true /\ x <> "".
Proof.
  cbv [PATTERNS_component Cat lit]. intros H. spine. brackets.
  match goal with H : all_in _ _ ?x = true |- _ => exists x end.
  repeat split; auto.
  intros ->. simpl in *. lia.
Qed.

Lemma pid_thread_groups ic w g :
  matches ic PATTERNS_pid_thread w [] g ->
  exists x y, get_group 1 g = Some x /\ get_group 2 g = Some y.
Proof.
  cbv [PATTERNS_pid_thread Cat lit]. intros H. spine.
  do 2 eexists. split; reflexivity.
Qed.

Lemma datetime_new_outcome y m d H M S us :
  (exists t, datetime_new y m d H M S us = Ok t) \/
  datetime_new y m d H M S us = Raise ValueError.
Proof.
  unfold datetime_new, check_date.
  destruct (in_range 1 9999 y && in_range 1 12 m
            && in_range 1 (days_in_month y m) d); simpl; [|now right].
  destruct (in_range 0 23 H && _ && _ && _); [left; eauto | now right].
Qed.

Lemma strptime_outcome s fmt :
  (exists t, strptime s fmt = Ok t) \/ strptime s fmt = Raise ValueError.
Proof.
  unfold strptime.
  destruct (format_regex false fmt); [|now right].
  destruct (match_here true r s) as [[n g]|]; [|now right].
  destruct (negb _); [now right|]. apply datetime_new_outcome.
Qed.

Lemma try_formats_ok fmts s : exists r, try_formats fmts s = Ok r.
Proof.
  induction fmts as [|fmt rest IH]; simpl; [eauto|].
  destruct (strptime_outcome s fmt) as [[t ->]| ->]; simpl; eauto.
Qed.

Lemma int_outcome s : (exists z, int s = Ok z) \/ int s = Raise ValueError.
Proof.
  unfold int.
  assert (B : forall sign t,
    (exists z, match int_digits false 0 0 t with
               | Some (v, cnt) =>
                   if Nat.ltb int_max_str_digits cnt then Raise ValueError
                   else Ok (sign * v)%Z
               | None => Raise ValueError
               end = Ok z) \/
    match int_digits false 0 0 t with
    | Some (v, cnt) =>
        if Nat.ltb int_max_str_digits cnt then Raise ValueError
        else Ok (sign * v)%Z
    | None => Raise ValueError
    end = Raise ValueError).
  { intros sign t. destruct (int_digits false 0 0 t) as [[v cnt]|]; [|now right].
    destruct (Nat.ltb _ _); [now right | left; eauto]. }
  destruct (Py.strip s) as [|c t]; [apply B|].
  destruct (Ascii.eqb_spec c "+") as [->|]; [apply B|].
  destruct (Ascii.eqb_spec c "-") as [->|]; [apply B|].
  destruct c as [[] [] [] [] [] [] [] []]; try apply B; congruence.
Qed.

Lemma extract_timestamp_ok now line :
  exists d, _extract_timestamp now line = Ok d /\
            (~ occurs true PATTERNS_timestamp line -> d = now).
Proof.
  unfold _extract_timestamp, compiled_search.
  destruct (search true PATTERNS_timestamp line) as [m|] eqn:E.
  - pose proof E as E'. apply search_Some in E as (pre & w & post & -> & M & _).
    apply timestamp_group in M. unfold group_str, group. rewrite M.
    cbv [mbind outcome_bind].
    destruct (try_formats_ok formats w) as [[d|] ->];
      eexists; (split; [reflexivity|]);
      intros H; apply search_None in H; congruence.
  - eauto.
Qed.

Lemma extract_level_ok line :
  exists l, _extract_level line = Ok l /\
            (~ occurs true PATTERNS_level line -> l = "INFO").
Proof.
  unfold _extract_level, compiled_search.
  destruct (search true PATTERNS_level line) as [m|] eqn:E.
  - pose proof E as E'. apply search_Some in E as (pre & w & post & -> & M & _).
    apply level_group in M as (x & G & _). unfold group_str, group. rewrite G.
    eexists; split; [reflexivity|].
    intros H; apply search_None in H; congruence.
  - eauto.
Qed.

Lemma extract_component_ok line :
  exists c, _extract_component line = Ok c /\
            (~ occurs true PATTERNS_component line -> c = "unknown").
Proof.
  unfold _extract_component, compiled_search.
  destruct (search true PATTERNS_component line) as [m|] eqn:E.
  - pose proof E as E'. apply search_Some in E as (pre & w & post & -> & M & _).
    apply component_group in M as (x & G & _). unfold group_str, group. rewrite G.
    eexists; split; [reflexivity|].
    intros H; apply search_None in H; congruence.
  - eauto.
Qed.

Lemma extract_pid_thread_ok line : exists pt, _extract_pid_thread line = Ok pt.
Proof.
  unfold _extract_pid_thread, compiled_search.
  destruct (search true PATTERNS_pid_thread line) as [m|] eqn:E; [|eauto].
  apply search_Some in E as (pre & w & post & -> & M & _).
  apply pid_thread_groups in M as (x & y & G1 & G2).
  unfold group_str, group. rewrite G1, G2. simpl.
  destruct (int_outcome x) as [[z ->]| ->]; simpl; eauto.
Qed.

Lemma parse_line_ok now line :
  exists e, parse_line now line = Ok e /\
            raw_line e = line /\
            (exists md, metadata e = Some md) /\
            (~ occurs true PATTERNS_timestamp line -> timestamp e = now) /\
            (~ occurs true PATTERNS_level line -> level e = "INFO") /\
            (~ occurs true PATTERNS_component line -> component e = "unknown").
Proof.
  unfold parse_line.
  destruct (extract_timestamp_ok now line) as (d & -> & Hd).
  destruct (extract_level_ok line) as (l & -> & Hl).
  destruct (extract_component_ok line) as (c & -> & Hc).
  destruct (extract_pid_thread_ok line) as (pt & ->).
  simpl. eexists; split; [reflexivity|]. simpl. eauto 10.
Qed.

Lemma chr_ci (a c : ascii) :
  charset_match true (Chr a) c = true -> Py.lower_char c = Py.lower_char a.
Proof. simpl. unfold chr_eq. intros H. apply Ascii.eqb_eq in H. congruence. Qed.

(** A text matched by the level alternatives, ignoring case, is one of the
    six names once in lower case. *)
Lemma level_names_lower x g g' :
  matches true level_names x g g' ->
  In (Py.lower x) ["debug"; "info"; "warn"; "error"; "trace"; "fatal"].
Proof.
  cbv [level_names Alts Str]. intros H.
  repeat match goal with
    | H : matches _ (Alt _ _) _ _ _ |- _ => inversion H; clear H; subst
    end; spine;
    repeat match goal with
      | H : charset_match true (Chr _) _ = true |- _ => apply chr_ci in H
      end;
    cbn [String.append Py.lower];
    repeat match goal with H : Py.lower_char _ = _ |- _ => rewrite H; clear H end;
    vm_compute; tauto.
Qed.

(** The level returned is one of the six names up to the case of its
    letters. *)
Lemma extract_level_up_to_case line l :
  _extract_level line = Ok l ->
  In (Py.lower l) ["debug"; "info"; "warn"; "error"; "trace"; "fatal"].
Proof.
  unfold _extract_level, compiled_search.
  destruct (search true PATTERNS_level line) as [m|] eqn:E.
  - apply search_Some in E as (pre & w & post & -> & M & _).
    apply level_group in M as (x & G & _ & Hx). unfold group_str, group.
    rewrite G. intros [= <-]. now apply level_names_lower in Hx.
  - intros [= <-]. vm_compute. tauto.
Qed.

(** A word matches itself whatever the case of the letters. *)
Lemma Str_ci w : forall x g,
  Py.lower x = Py.lower w -> matches true (Str w) x g g.
Proof.
  induction w as [|c w IH]; intros x g H.
  - destruct x; [constructor | discriminate].
  - destruct x as [|c' x]; [discriminate|]. simpl in H.
    injection H as Hc Hx.
    assert (M : charset_match true (Chr c) c' = true).
    { simpl. unfold chr_eq. rewrite Hc. apply Ascii.eqb_refl. }
    destruct w as [|d w].
    + destruct x; [|discriminate]. simpl. now constructor.
    + change (Str (String c (String d w)))
        with (Seq (One (Chr c)) (Str (String d w))).
      change (String c' x) with (String c' "" +:+ x).
      econstructor; [now constructor | now apply IH].
Qed.

(** The level pattern occurs in a line exactly when the line has a bracket
    pair around one of the six names, in any case. *)
Lemma occurs_level line :
  occurs true PATTERNS_level line <->
  exists pre x post,
    line = pre +:+ "[" +:+ x +:+ "]" +:+ post /\
    In (Py.lower x) ["debug"; "info"; "warn"; "error"; "trace"; "fatal"].
Proof.
  split.
  - intros (pre & w & post & g & -> & M).
    apply level_group in M as (x & _ & -> & Hx).
    exists pre, x, post. split; [|now apply level_names_lower in Hx].
    now rewrite !str_app_assoc.
  - intros (pre & x & post & -> & Hx).
    exists pre, ("[" +:+ x +:+ "]"), post, [(1, x)].
    split; [now rewrite !str_app_assoc|].
    cbv [PATTERNS_level Cat lit].
    apply (m_seq true _ _ "[" (x +:+ "]") [] [] [(1, x)]);
      [now constructor|].
    apply (m_seq true _ _ x "]" [] [(1, x)] [(1, x)]);
      [|now constructor].
    constructor. cbn [In] in Hx.
    destruct Hx as [Hx|[Hx|[Hx|[Hx|[Hx|[Hx|[]]]]]]]; symmetry in Hx.
    + apply m_alt_l. now apply Str_ci.
    + apply m_alt_r, m_alt_l. now apply Str_ci.
    + do 2 apply m_alt_r. apply m_alt_l. now apply Str_ci.
    + do 3 apply m_alt_r. apply m_alt_l. now apply Str_ci.
    + do 4 apply m_alt_r. apply m_alt_l. now apply Str_ci.
    + do 5 apply m_alt_r. now apply Str_ci.
Qed.

(** The component pattern occurs in a line exactly when the line has a
    bracket pair around a text that is not empty and has no closing
    bracket. *)
Lemma occurs_component line :
  occurs true PATTERNS_component line <->
  exists pre x post,
    line = pre +:+ "[" +:+ x +:+ "]" +:+ post /\
    x <> "" /\ all_in true (None_of ["]"%char]) x = true.
Proof.
  split.
  - intros (pre & w & post & g & -> & M).
    apply component_group in M as (x & _ & -> & Hx & Hne).
    exists pre, x, post. split; [|auto]. now rewrite !str_app_assoc.
  - intros (pre & x & post & -> & Hne & Hx).
    exists pre, ("[" +:+ x +:+ "]"), post, [(1, x)].
    split; [now rewrite !str_app_assoc|].
    cbv [PATTERNS_component Cat lit].
    apply (m_seq true _ _ "[" (x +:+ "]") [] [] [(1, x)]);
      [now constructor|].
    apply (m_seq true _ _ x "]" [] [(1, x)] [(1, x)]);
      [|now constructor].
    constructor. constructor; auto; [|exact I].
    destruct x; [congruence | simpl; lia].
Qed.

(** Greedy repetition takes the whole run when what follows the run is
    accepted by the rest of the pattern. *)
Lemma rep_greedy {A} ic cs x : forall lo rest (k : string -> option A) v,
  all_in ic cs x = true ->
  match rest with
  | String c _ => charset_match ic cs c = false
  | EmptyString => True
  end ->
  lo <= String.length x -> k rest = Some v ->
  rep_match ic cs lo None (x +:+ rest) k = Some v.
Proof.
  induction x as [|c x IH]; intros lo rest k v Hall Hrest Hlo Hk.
  - simpl in Hlo. replace lo with 0 by lia. simpl.
    destruct rest as [|c r]; simpl; [exact Hk|]. now rewrite Hrest.
  - simpl in Hall. apply andb_prop in Hall as [Hc Hall].
    simpl. rewrite Hc. simpl.
    rewrite (IH (Nat.pred lo) rest k v); auto. simpl in Hlo. lia.
Qed.

Lemma component_here x post :
  x <> "" -> all_in true (None_of ["]"%char]) x = true ->
  exists n,
    match_here true PATTERNS_component ("[" +:+ x +:+ "]" +:+ post)
    = Some (n, [(1, x)]).
Proof.
  intros Hne Hx. unfold match_here. cbv [PATTERNS_component Cat lit].
  cbn [re_match String.append].
  change (charset_match true (Chr "[") "[") with true. cbv iota.
  eexists. apply rep_greedy; [exact Hx | reflexivity | |].
  - destruct x; [congruence | simpl; lia].
  - cbn [re_match]. change (charset_match true (Chr "]") "]") with true.
    cbv iota.
    change (String "]" post) with ("]" +:+ post).
    rewrite consumed_app. reflexivity.
Qed.

Lemma component_skip c s :
  charset_match true (None_of ["["%char]) c = true ->
  match_here true PATTERNS_component (String c s) = None.
Proof.
  intros H. unfold match_here. cbv [PATTERNS_component Cat lit].
  cbn [re_match]. simpl in H. rewrite orb_false_r in H.
  apply negb_true_iff in H. simpl. now rewrite H.
Qed.

(** The component pattern finds the first bracket of the line. *)
Lemma search_component_first pre : forall p x post,
  all_in true (None_of ["["%char]) pre = true ->
  x <> "" -> all_in true (None_of ["]"%char]) x = true ->
  exists m,
    search_from true PATTERNS_component p (pre +:+ "[" +:+ x +:+ "]" +:+ post)
    = Some m /\ group m 1 = Some x /\ m_start m = p + String.length pre.
Proof.
  induction pre as [|c pre IH]; intros p x post Hpre Hne Hx.
  - destruct (component_here x post Hne Hx) as [n Hn].
    cbn [String.append] in *. cbn [search_from]. rewrite Hn.
    eexists. split; [reflexivity|]. split; [reflexivity | simpl; lia].
  - simpl in Hpre. apply andb_prop in Hpre as [Hc Hpre].
    destruct (IH (S p) x post Hpre Hne Hx) as (m & Hm & G & St).
    remember ("[" +:+ x +:+ "]" +:+ post) as R.
    change (String c pre +:+ R) with (String c (pre +:+ R)).
    cbn [search_from]. rewrite (component_skip c _ Hc).
    exists m. split; [exact Hm|]. split; [exact G | simpl; lia].
Qed.

(** C1, for every line: the component returned is the text of the first
    bracket pair of the line. *)
Lemma component_is_first_bracket pre x post :
  all_in true (None_of ["["%char]) pre = true ->
  x <> "" -> all_in true (None_of ["]"%char]) x = true ->
  _extract_component (pre +:+ "[" +:+ x +:+ "]" +:+ post) = Ok x.
Proof.
  intros Hpre Hne Hx. unfold _extract_component, compiled_search, search.
  destruct (search_component_first pre 0 x post Hpre Hne Hx) as (m & -> & G & _).
  unfold group_str. now rewrite G.
Qed.

Lemma all_in_app ic cs a b :
  all_in ic cs (a +:+ b) = all_in ic cs a && all_in ic cs b.
Proof.
  induction a as [|c a IH]; simpl; [reflexivity|].
  now rewrite IH, andb_assoc.
Qed.

(** In a line made of a timestamp, a bracketed level and a bracketed
    component, the component returned is the level. *)
Lemma component_of_well_formed_line ts lvl comp rest :
  all_in true (None_of ["["%char]) ts = true ->
  lvl <> "" -> all_in true (None_of ["]"%char]) lvl = true ->
  _extract_component
    (ts +:+ " [" +:+ lvl +:+ "] [" +:+ comp +:+ "] " +:+ rest) = Ok lvl.
Proof.
  intros Hts Hne Hl.
  replace (ts +:+ " [" +:+ lvl +:+ "] [" +:+ comp +:+ "] " +:+ rest)
    with ((ts +:+ " ") +:+ "[" +:+ lvl +:+ "]" +:+ (" [" +:+ comp +:+ "] " +:+ rest)).
  - apply component_is_first_bracket; auto.
    rewrite all_in_app, Hts. reflexivity.
  - rewrite !str_app_assoc. reflexivity.
Qed.

End ParserFacts.

(** ** One line through the aggregation path *)

Module MonitorFacts.
Import PyFacts ParserFacts LogMonitor Spec.

Lemma process_empty now w : _process_log_line now "" w = (w, Ok tt).
Proof. reflexivity. Qed.

(** Everything [_process_log_line] does with an entry. *)
Lemma process_entry now line e md w :
  line <> "" ->
  LogParser.parse_line now line = Ok e ->
  metadata e = Some md ->
  let logged := negb (triggers e) || can_open w ErrorsFile in
  exists w', _process_log_line now line w = (w', Ok tt) /\
  stats w' = (if triggers e then add1 "total_errors" else id)
               (add1 ("component_" +:+ component e)
                  (add1 ("level_" +:+ level e) (add1 "total_lines" (stats w))))
  /\ recent_entries w' = Deque.append e (recent_entries w)
  /\ error_buffer w' = (if triggers e then Deque.append e (error_buffer w)
                        else error_buffer w)
  /\ errors_file w' = (if triggers e && can_open w ErrorsFile
                       then errors_file w ++ [error_data e] else errors_file w)
  /\ monitor_log w' = (if logged && can_open w MonitorLog
                       then monitor_log w ++ [log_data e] else monitor_log w)
  /\ stats_file w' = stats_file w /\ running w' = running w
  /\ can_open w' = can_open w /\ verbose w' = verbose w
  /\ start_time w' = start_time w.
Proof.
  intros Hne Hp Hmd. unfold _process_log_line.
  destruct line as [|c line]; [congruence|].
  change (Py.is_empty (String c line)) with false. cbv iota.
  unfold triggers, flagged. rewrite Hmd.
  unfold try_catch. unfold bind at 1. unfold lift at 1. rewrite Hp.
  unfold is_error, level_in. cbn [existsb]. rewrite Hmd, orb_false_r.
  destruct (String.eqb (level e) "ERROR" || String.eqb (level e) "FATAL");
    [|destruct (has_error md)];
    cbv [when _log_error _log_to_monitor open incr update read ret bind lift
         print is_verbose orb];
    cbn [can_open set_stats set_recent_entries set_error_buffer set_errors_file
         set_monitor_log set_console verbose];
    destruct (can_open w ErrorsFile);
    cbn [can_open set_stats set_recent_entries set_error_buffer set_errors_file
         set_monitor_log set_console verbose];
    destruct (can_open w MonitorLog);
    cbn [can_open set_stats set_recent_entries set_error_buffer set_errors_file
         set_monitor_log set_console verbose];
    destruct (verbose w) as [[]|] eqn:Ev;
    (eexists; split; [reflexivity | repeat split; try reflexivity; exact Ev]).
Qed.

End MonitorFacts.

(** ** Counters *)

Module CounterFacts.
Import PyFacts ParserFacts MonitorFacts LogMonitor Spec.

Lemma level_sum_empty : level_sum ∅ = 0%Z.
Proof. unfold level_sum. apply map_fold_empty. Qed.

Lemma level_sum_fresh k v (m : gmap string Z) :
  m !! k = None ->
  level_sum (<[k := v]> m) =
  (if is_level_key k then (v + level_sum m)%Z else level_sum m).
Proof.
  intros Hk. unfold level_sum. rewrite map_fold_insert_L; auto.
  intros j1 j2 z1 z2 y _ _ _.
  destruct (is_level_key j1), (is_level_key j2); lia.
Qed.

(** Storing [v] under [k] changes the sum by what changed under [k]. *)
Lemma level_sum_insert k v (m : gmap string Z) :
  level_sum (<[k := v]> m) =
  (level_sum m + (if is_level_key k then v - counter m k else 0))%Z.
Proof.
  unfold counter. destruct (m !! k) as [x|] eqn:Hk; simpl.
  - rewrite <- (insert_delete_id m k x Hk) at 2.
    rewrite <- (insert_delete_eq m k v).
    rewrite !level_sum_fresh by apply lookup_delete_eq.
    destruct (is_level_key k); lia.
  - rewrite level_sum_fresh by done. destruct (is_level_key k); lia.
Qed.

Lemma level_sum_add1 k (m : gmap string Z) :
  level_sum (add1 k m) =
  (level_sum m + (if is_level_key k then 1 else 0))%Z.
Proof. unfold add1. rewrite level_sum_insert. destruct (is_level_key k); lia. Qed.

Lemma counter_add1 k k' (m : gmap string Z) :
  counter (add1 k m) k' =
  (if decide (k = k') then counter m k + 1 else counter m k')%Z.
Proof.
  unfold add1, counter at 1. rewrite lookup_insert.
  destruct (decide (k = k')) as [->|]; reflexivity.
Qed.

Lemma level_key_level x : is_level_key ("level_" +:+ x) = true.
Proof. reflexivity. Qed.

Lemma level_key_component x : is_level_key ("component_" +:+ x) = false.
Proof. reflexivity. Qed.

Lemma counted_entry e (m : gmap string Z) :
  counter m "total_lines" = level_sum m ->
  let m' := (if triggers e then add1 "total_errors" else id)
              (add1 ("component_" +:+ component e)
                 (add1 ("level_" +:+ level e) (add1 "total_lines" m))) in
  counter m' "total_lines" = level_sum m'.
Proof.
  intros H m'. subst m'.
  destruct (triggers e); unfold id;
    rewrite ?level_sum_add1, ?counter_add1, level_key_level,
      level_key_component;
    repeat (case_decide; try discriminate; try congruence);
    change (is_level_key "total_lines") with false;
    change (is_level_key "total_errors") with false; cbv iota; lia.
Qed.

Lemma counted_step w ev : counted w -> counted (step w ev).
Proof.
  unfold counted. intros H. destruct ev as [now line|n|now t|can]; simpl.
  - destruct line as [|c line]; [exact H|].
    destruct (parse_line_ok now (String c line))
      as (e & Hp & _ & [md Hmd] & _).
    destruct (process_entry now (String c line) e md w ltac:(done) Hp Hmd)
      as (w' & -> & Hs & _).
    simpl. rewrite Hs. now apply counted_entry.
  - rewrite level_sum_insert. unfold counter in *.
    rewrite lookup_insert_ne by done.
    change (is_level_key "active_processes") with false. cbv iota. lia.
  - unfold _save_current_stats, bind, read, open, update.
    destruct (can_open w StatsFile); exact H.
  - exact H.
Qed.

Lemma run_snoc evs ev w : run (evs ++ [ev]) w = step (run evs w) ev.
Proof. unfold run. now rewrite foldl_app. Qed.

Lemma counted_run evs w : counted w -> counted (run evs w).
Proof.
  intros H. induction evs as [|ev evs IH] using rev_ind; [exact H|].
  rewrite run_snoc. now apply counted_step.
Qed.

End CounterFacts.

(** ** Ring buffers *)

Module BufferFacts.
Import PyFacts ParserFacts MonitorFacts CounterFacts LogMonitor Spec Deque.

Lemma length_last_n {A} n (l : list A) : length (last_n n l) = min n (length l).
Proof. unfold last_n. rewrite length_drop. lia. Qed.

Lemma tail_drop {A} k (l : list A) : tail (drop k l) = drop (S k) l.
Proof.
  revert k. induction l as [|x l IH]; intros [|k]; simpl; auto.
Qed.

(** Appending to a deque that holds the last [maxlen] elements of [l] leaves
    it holding the last [maxlen] elements of [l ++ [x]]. *)
Lemma append_last_n {A} (x : A) (d : deque A) (l : list A) :
  items d = last_n (maxlen d) l ->
  items (append x d) = last_n (maxlen d) (l ++ [x]).
Proof.
  intros H. unfold append. cbn [items]. rewrite H. unfold last_n.
  rewrite !length_app, length_drop. cbn [length].
  destruct (Nat.ltb_spec (maxlen d)
              (length l - (length l - maxlen d) + 1)) as [Hlt|Hge].
  - replace (length l + 1 - maxlen d) with (S (length l - maxlen d)) by lia.
    rewrite <- tail_drop. f_equal. rewrite drop_app_le by lia. reflexivity.
  - replace (length l - maxlen d) with 0 by lia.
    replace (length l + 1 - maxlen d) with 0 by lia.
    now rewrite !drop_0.
Qed.

Lemma maxlen_append {A} (x : A) (d : deque A) : maxlen (append x d) = maxlen d.
Proof. reflexivity. Qed.

Lemma entries_of_snoc evs ev :
  entries_of (evs ++ [ev]) =
  entries_of evs ++ match entry_of ev with Some e => [e] | None => [] end.
Proof.
  unfold entries_of. rewrite omap_app. simpl. now destruct (entry_of ev).
Qed.

Lemma errors_of_snoc evs ev :
  errors_of (evs ++ [ev]) =
  errors_of evs ++ match entry_of ev with
                   | Some e => if triggers e then [e] else []
                   | None => []
                   end.
Proof.
  unfold errors_of. rewrite entries_of_snoc, List.filter_app.
  destruct (entry_of ev) as [e|]; simpl; [destruct (triggers e)|]; reflexivity.
Qed.

Lemma buffered_step evs ev w :
  buffered evs w -> buffered (evs ++ [ev]) (step w ev).
Proof.
  intros (M1 & M2 & I1 & I2). unfold buffered.
  rewrite entries_of_snoc, errors_of_snoc.
  destruct ev as [now line|n|now t|can]; simpl.
  - destruct line as [|c line].
    { simpl. rewrite !app_nil_r. auto. }
    destruct (parse_line_ok now (String c line))
      as (e & Hp & _ & [md Hmd] & _).
    destruct (process_entry now (String c line) e md w ltac:(done) Hp Hmd)
      as (w' & -> & _ & Hr & He & _).
    change (Py.is_empty (String c line)) with false. cbv iota.
    rewrite Hp. cbn [fst]. rewrite Hr, He.
    destruct (triggers e).
    + rewrite !maxlen_append. repeat split; auto.
      * rewrite <- M1. apply append_last_n. now rewrite M1.
      * rewrite <- M2. apply append_last_n. now rewrite M2.
    + rewrite !maxlen_append, app_nil_r. repeat split; auto.
      rewrite <- M1. apply append_last_n. now rewrite M1.
  - rewrite !app_nil_r. auto.
  - rewrite !app_nil_r.
    unfold _save_current_stats, bind, read, open, update.
    destruct (can_open w StatsFile); auto.
  - rewrite !app_nil_r. auto.
Qed.

Lemma buffered_run evs ml ef sf can :
  buffered evs (run evs (__init__ ml ef sf can)).
Proof.
  induction evs as [|ev evs IH] using rev_ind.
  - repeat split.
  - rewrite run_snoc. now apply buffered_step.
Qed.

End BufferFacts.

(** ** The process table *)

Module ProcessFacts.
Import ParserFacts ProcessMonitor.

Section Scan.
Context {float : Type} (parse_float : string -> option float)
        (rough_mb : float -> float).

Lemma set_status_twice st (p : ProcessInfo float) :
  set_status st (set_status st p) = set_status st p.
Proof. reflexivity. Qed.

(** A line of [ps] adds nothing or one process, which is [running]; no
    exception leaves the loop body. *)
Lemma scan_line_ok now line :
  exists r, scan_line parse_float rough_mb now line = Ok r /\
            forall p, r = Some p -> status p = "running".
Proof.
  unfold scan_line.
  destruct (_ && _); [|exists None; split; [reflexivity | discriminate]].
  destruct (Nat.leb _ _); [|exists None; split; [reflexivity | discriminate]].
  unfold index, float_of.
  destruct (Py.split line !! 1) as [p1|]; cbn [mbind outcome_bind try_except is_row_error];
    [|exists None; split; [reflexivity | discriminate]].
  destruct (int_outcome p1) as [[z ->]| ->]; cbn [mbind outcome_bind try_except is_row_error];
    [|exists None; split; [reflexivity | discriminate]].
  destruct (Py.split line !! 2) as [p2|]; cbn [mbind outcome_bind try_except is_row_error];
    [|exists None; split; [reflexivity | discriminate]].
  destruct (parse_float p2) as [cpu|]; cbn [mbind outcome_bind try_except is_row_error];
    [|exists None; split; [reflexivity | discriminate]].
  destruct (Py.split line !! 3) as [p3|]; cbn [mbind outcome_bind try_except is_row_error];
    [|exists None; split; [reflexivity | discriminate]].
  destruct (parse_float p3) as [mem|]; cbn [mbind outcome_bind try_except is_row_error];
    [|exists None; split; [reflexivity | discriminate]].
  destruct (isdigit p2).
  - destruct (int_outcome p2) as [[z2 ->]| ->];
      cbn [mbind outcome_bind try_except is_row_error].
    + eexists; split; [reflexivity|]. now intros p [= <-].
    + exists None; split; [reflexivity | discriminate].
  - cbn [mbind outcome_bind try_except is_row_error].
    eexists; split; [reflexivity|]. now intros p [= <-].
Qed.

Lemma scan_lines_ok now lines :
  exists ps, scan_lines parse_float rough_mb now lines = Ok ps /\
             Forall (fun p => status p = "running") ps.
Proof.
  induction lines as [|line rest (ps & IH & Hall)]; cbn [ProcessMonitor.scan_lines].
  - exists []. split; [reflexivity | constructor].
  - destruct (scan_line_ok now line) as (r & -> & Hr). rewrite IH.
    cbn [mbind outcome_bind]. destruct r as [p|].
    + exists (p :: ps). split; [reflexivity|]. constructor; auto.
    + exists ps. split; [reflexivity | assumption].
Qed.

Lemma mark_terminated_lookup (cur : gset Z) keys :
  forall (t : gmap Z (ProcessInfo float)) k,
    mark_terminated cur keys t !! k =
    if bool_decide (k ∈ keys /\ k ∉ cur)
    then set_status "terminated" <$> t !! k
    else t !! k.
Proof.
  unfold mark_terminated.
  induction keys as [|k0 keys IH]; intros t k; cbn [foldl].
  - rewrite bool_decide_eq_false_2; [reflexivity|].
    intros [H _]. now apply not_elem_of_nil in H.
  - rewrite IH. clear IH.
    destruct (bool_decide_reflect (k0 ∈ cur)) as [Hc|Hc].
    + repeat case_bool_decide; try reflexivity; exfalso.
      * match goal with H : ¬ _ |- _ => apply H end.
        split; [apply elem_of_cons; right|]; tauto.
      * match goal with H : _ /\ _ |- _ => destruct H as [Hin Hn] end.
        apply elem_of_cons in Hin as [->|Hin]; [tauto|].
        match goal with H : ¬ _ |- _ => apply H end. tauto.
    + rewrite lookup_alter.
      destruct (decide (k0 = k)) as [->|Hne].
      * rewrite (bool_decide_eq_true_2 (k ∈ k :: keys /\ k ∉ cur))
          by (split; [apply elem_of_cons; now left | assumption]).
        case_bool_decide; [|reflexivity].
        destruct (t !! k); simpl; reflexivity.
      * repeat case_bool_decide; try reflexivity; exfalso.
        -- match goal with H : ¬ _ |- _ => apply H end.
           split; [apply elem_of_cons; right|]; tauto.
        -- match goal with H : _ /\ _ |- _ => destruct H as [Hin Hn] end.
           apply elem_of_cons in Hin as [->|Hin]; [congruence|].
           match goal with H : ¬ _ |- _ => apply H end. tauto.
Qed.

Lemma store_all_snoc ps p (t : gmap Z (ProcessInfo float)) :
  store_all (ps ++ [p]) t = <[pid p := p]> (store_all ps t).
Proof. unfold store_all. now rewrite foldl_app. Qed.

Lemma store_all_other ps : forall (t : gmap Z (ProcessInfo float)) k,
  k ∉ pid <$> ps -> store_all ps t !! k = t !! k.
Proof.
  induction ps as [|p ps IH] using rev_ind; intros t k Hk; [reflexivity|].
  rewrite store_all_snoc. rewrite fmap_app in Hk.
  rewrite lookup_insert_ne.
  - apply IH. intros H. apply Hk, elem_of_app. now left.
  - intros <-. apply Hk, elem_of_app. right. simpl. apply list_elem_of_singleton.
    reflexivity.
Qed.

Lemma store_all_stored ps : forall (t : gmap Z (ProcessInfo float)) p,
  p ∈ ps ->
  exists q, store_all ps t !! pid p = Some q /\ q ∈ ps /\
            pid q = pid p.
Proof.
  induction ps as [|p0 ps IH] using rev_ind; intros t p Hp.
  - now apply not_elem_of_nil in Hp.
  - rewrite store_all_snoc.
    destruct (decide (pid p0 = pid p)) as [E|N].
    + exists p0. rewrite E, lookup_insert_eq. repeat split; auto.
      apply elem_of_app. right. now apply list_elem_of_singleton.
    + rewrite lookup_insert_ne by assumption.
      apply elem_of_app in Hp as [Hp|Hp].
      * destruct (IH t p Hp) as (q & Hq & Hin & Hpid).
        exists q. repeat split; auto. apply elem_of_app. now left.
      * apply list_elem_of_singleton in Hp. congruence.
Qed.

End Scan.

End ProcessFacts.

(** ** The tail loop and the stats thread *)

Module LoopFacts.
Import PyFacts ParserFacts MonitorFacts LogMonitor Tail.


Lemma drop_all n : forall s, String.length s <= n -> Py.drop n s = "".
Proof.
  induction n as [|n IH]; intros [|c s] H; simpl in *; auto; try lia.
  apply IH. lia.
Qed.


(** A failed write of the statistics ends [_save_stats_periodically]: the
    exception leaves the loop and the turns that follow are never run. *)
Lemma failed_flush_ends_the_loop t rest w :
  running w = true ->
  can_open (while_asleep t w) StatsFile = false ->
  _save_stats_periodically (t :: rest) w
  = (while_asleep t w, Some (Raise OSError)).
Proof.
  intros Hr Hc. cbn [_save_stats_periodically]. rewrite Hr.
  unfold _save_current_stats, bind, read, open. now rewrite Hc.
Qed.

End LoopFacts.

(** * Further properties *)

(** ** More on the parser *)

Module ParserFacts2.
Import Re ReSpec PyFacts ReFacts SearchFacts ParserFacts LogParser Spec Spec2.

(** The fields of the entry are what the extractors return. *)
Lemma parse_line_fields now line e :
  parse_line now line = Ok e ->
  _extract_timestamp now line = Ok (timestamp e)
  /\ _extract_level line = Ok (level e)
  /\ _extract_component line = Ok (component e)
  /\ _extract_pid_thread line = Ok (pid e, thread_id e)
  /\ message e = fold_left clean
                   [PATTERNS_timestamp; PATTERNS_level; PATTERNS_component;
                    PATTERNS_pid_thread] line
  /\ raw_line e = line
  /\ metadata e = Some
       {| has_error := bool_decide (is_Some (compiled_search PATTERNS_error line));
          has_performance :=
            bool_decide (is_Some (compiled_search PATTERNS_performance line));
          line_length := String.length line |}.
Proof.
  unfold parse_line.
  destruct (_extract_timestamp now line) as [d| |]; try discriminate.
  destruct (_extract_level line) as [l| |]; try discriminate.
  destruct (_extract_component line) as [c| |]; try discriminate.
  destruct (_extract_pid_thread line) as [[p t]| |]; try discriminate.
  cbn [mbind outcome_bind]. intros [= <-]. cbn. repeat split.
Qed.

(** A level that was found stands in the line between brackets. *)
Lemma extract_level_found line l :
  _extract_level line = Ok l ->
  (~ occurs true PATTERNS_level line /\ l = "INFO")
  \/ (exists pre post,
        line = pre +:+ "[" +:+ l +:+ "]" +:+ post /\
        In (Py.lower l) ["debug"; "info"; "warn"; "error"; "trace"; "fatal"]).
Proof.
  unfold _extract_level, compiled_search.
  destruct (search true PATTERNS_level line) as [m|] eqn:E.
  - apply search_Some in E as (pre & w & post & -> & M & _).
    apply level_group in M as (x & G & -> & Hx). unfold group_str, group.
    rewrite G. intros [= <-]. right. exists pre, post.
    split; [now rewrite !str_app_assoc | now apply level_names_lower in Hx].
  - intros [= <-]. left. split; [now apply search_None | reflexivity].
Qed.


(** The error vocabulary occurs in a line that has the word "error", in any
    case, between brackets. *)
Lemma error_word_occurs pre x post :
  Py.lower x = "error" ->
  occurs true PATTERNS_error (pre +:+ "[" +:+ x +:+ "]" +:+ post).
Proof.
  intros Hx. exists (pre +:+ "["), x, ("]" +:+ post), [(1, x)].
  split; [now rewrite !str_app_assoc|].
  unfold PATTERNS_error. constructor. cbv [Alts]. apply m_alt_l.
  now apply Str_ci.
Qed.

Lemma lower_colon b : Py.lower_char b = ":"%char -> b = ":"%char.
Proof. destruct b as [[] [] [] [] [] [] [] []]; vm_compute; congruence. Qed.

(** What the pid and thread pattern matches, and the groups it sets. *)
Lemma pid_thread_shape ic w g :
  matches ic PATTERNS_pid_thread w [] g ->
  exists ds t,
    g = [(2, t); (1, ds)] /\ w = "[" +:+ ds +:+ ":" +:+ t +:+ "]"
    /\ all_in ic Digit ds = true /\ ds <> ""
    /\ all_in ic (None_of ["]"%char]) t = true /\ t <> "".
Proof.
  cbv [PATTERNS_pid_thread Cat lit]. intros H. spine. brackets.
  match goal with H : charset_match _ (Chr ":") _ = true |- _ =>
    apply chr_only in H; [subst | reflexivity | exact lower_colon] end.
  match goal with
    H1 : all_in _ Digit ?ds = true, H2 : all_in _ (None_of _) ?t = true |- _ =>
      exists ds, t end.
  repeat split; auto; intros ->; simpl in *; lia.
Qed.

Lemma digit_not_space c : Py.is_digit c = true -> Py.isspace c = false.
Proof. destruct c as [[] [] [] [] [] [] [] []]; vm_compute; congruence. Qed.

Lemma digit_value_range c : Py.is_digit c = true -> (0 <= digit_value c <= 9)%Z.
Proof.
  destruct c as [[] [] [] [] [] [] [] []]; vm_compute; intros H;
    try discriminate H; split; discriminate.
Qed.

Lemma rstrip_digits ds : all_in true Digit ds = true -> Py.rstrip ds = ds.
Proof.
  induction ds as [|c ds IH]; [reflexivity|]. simpl. intros H.
  apply andb_prop in H as [Hc Hds]. rewrite (IH Hds).
  destruct ds; [now rewrite (digit_not_space c Hc) | reflexivity].
Qed.

Lemma strip_digits ds : all_in true Digit ds = true -> Py.strip ds = ds.
Proof.
  intros H. unfold Py.strip.
  assert (L : Py.lstrip ds = ds).
  { destruct ds as [|c ds]; [reflexivity|]. simpl in *.
    apply andb_prop in H as [Hc _]. now rewrite (digit_not_space c Hc). }
  rewrite L. now apply rstrip_digits.
Qed.

Lemma int_digits_all ds : forall prev acc cnt,
  all_in true Digit ds = true -> (prev = true \/ ds <> "") ->
  int_digits prev acc cnt ds
  = Some (nat_of_digits acc ds, cnt + String.length ds).
Proof.
  induction ds as [|c ds IH]; intros prev acc cnt H Hp.
  - destruct Hp as [->|Hp]; [|congruence]. simpl. f_equal. f_equal. lia.
  - simpl in H. apply andb_prop in H as [Hc Hds]. simpl. rewrite Hc.
    rewrite (IH true) by auto. f_equal. f_equal. simpl. lia.
Qed.

Lemma nat_of_digits_nonneg ds : forall acc,
  all_in true Digit ds = true -> (0 <= acc)%Z -> (0 <= nat_of_digits acc ds)%Z.
Proof.
  induction ds as [|c ds IH]; intros acc H Ha; [exact Ha|].
  simpl in H. apply andb_prop in H as [Hc Hds]. simpl. apply IH; auto.
  pose proof (digit_value_range c Hc). lia.
Qed.

(** [int] on a run of digits: their value, or [ValueError] when there are
    more than [int_max_str_digits] of them. *)
Lemma int_of_digits ds :
  all_in true Digit ds = true -> ds <> "" ->
  int ds = if Nat.ltb int_max_str_digits (String.length ds)
           then Raise ValueError else Ok (nat_of_digits 0 ds).
Proof.
  intros H Hne. unfold int. rewrite (strip_digits ds H).
  assert (B : match int_digits false 0 0 ds with
              | Some (v, cnt) =>
                  if Nat.ltb int_max_str_digits cnt then Raise ValueError
                  else Ok (1 * v)%Z
              | None => Raise ValueError
              end
              = if Nat.ltb int_max_str_digits (String.length ds)
                then Raise ValueError else Ok (nat_of_digits 0 ds)).
  { rewrite int_digits_all by auto. simpl.
    destruct (Nat.ltb _ _); [reflexivity|].
    f_equal. destruct (nat_of_digits 0 ds); reflexivity. }
  destruct ds as [|c ds]; [congruence|].
  simpl in H. apply andb_prop in H as [Hc _].
  destruct (Ascii.eqb_spec c "+") as [->|]; [discriminate Hc|].
  destruct (Ascii.eqb_spec c "-") as [->|]; [discriminate Hc|].
  destruct c as [[] [] [] [] [] [] [] []]; try exact B; congruence.
Qed.

Lemma extract_pid_thread_found line p t :
  _extract_pid_thread line = Ok (p, t) ->
  (p = None /\ t = None)
  \/ (exists ds x pre post,
        line = pre +:+ "[" +:+ ds +:+ ":" +:+ x +:+ "]" +:+ post
        /\ ds <> "" /\ all_in true Digit ds = true
        /\ x <> "" /\ all_in true (None_of ["]"%char]) x = true
        /\ p = Some (nat_of_digits 0 ds) /\ (0 <= nat_of_digits 0 ds)%Z
        /\ t = Some x).
Proof.
  unfold _extract_pid_thread, compiled_search.
  destruct (search true PATTERNS_pid_thread line) as [m|] eqn:E;
    [|intros [= <- <-]; now left].
  apply search_Some in E as (pre & w & post & -> & M & _).
  apply pid_thread_shape in M as (ds & x & G & -> & Hd & Hdne & Hx & Hxne).
  unfold group_str, group. rewrite G. cbn [get_group Nat.eqb].
  cbn [mbind outcome_bind]. rewrite (int_of_digits ds Hd Hdne).
  destruct (Nat.ltb _ _); cbn [mbind outcome_bind try_except is_ValueError];
    intros [= <- <-]; [now left|].
  right. exists ds, x, pre, post. repeat split; auto.
  - now rewrite !str_app_assoc.
  - apply nat_of_digits_nonneg; [assumption | lia].
Qed.

(** ** Cleaning only deletes, and ends with [strip] *)

Lemma sub_skip_length ic r s : forall n,
  String.length (sub_skip ic r n s) <= String.length s.
Proof.
  induction s as [|c s IH]; intros n; simpl; [lia|].
  destruct n as [|n].
  - destruct (match_here ic r (String c s)) as [[[|k] g]|]; simpl;
      try (specialize (IH 0); lia). specialize (IH k). lia.
  - specialize (IH n). lia.
Qed.

Lemma lstrip_length s : String.length (Py.lstrip s) <= String.length s.
Proof.
  induction s as [|c s IH]; simpl; [lia|].
  destruct (Py.isspace c); simpl; lia.
Qed.

Lemma rstrip_length s : String.length (Py.rstrip s) <= String.length s.
Proof.
  induction s as [|c s IH]; simpl; [lia|].
  destruct (Py.rstrip s); [destruct (Py.isspace c)|]; simpl in *; lia.
Qed.

Lemma strip_length s : String.length (Py.strip s) <= String.length s.
Proof.
  unfold Py.strip. pose proof (rstrip_length (Py.lstrip s)).
  pose proof (lstrip_length s). lia.
Qed.

Lemma clean_length s r : String.length (clean s r) <= String.length s.
Proof.
  unfold clean, sub_empty. pose proof (strip_length (sub_skip false r 0 s)).
  pose proof (sub_skip_length false r s 0). lia.
Qed.

Lemma lstrip_first s : no_space_first (Py.lstrip s).
Proof.
  induction s as [|c s IH]; simpl; [exact I|].
  destruct (Py.isspace c) eqn:E; [exact IH | exact E].
Qed.

Lemma lstrip_id s : no_space_first s -> Py.lstrip s = s.
Proof. destruct s as [|c s]; simpl; [reflexivity|]. now intros ->. Qed.

Lemma rstrip_first s : no_space_first s -> no_space_first (Py.rstrip s).
Proof.
  destruct s as [|c s]; simpl; [auto|]. intros H.
  destruct (Py.rstrip s); [rewrite H|]; exact H.
Qed.

Lemma rstrip_idem s : Py.rstrip (Py.rstrip s) = Py.rstrip s.
Proof.
  induction s as [|c s IH]; [reflexivity|]. simpl.
  destruct (Py.rstrip s) as [|d t] eqn:E.
  - destruct (Py.isspace c) eqn:Ec; [reflexivity|]. simpl. now rewrite Ec.
  - simpl. simpl in IH. rewrite IH. reflexivity.
Qed.

Lemma strip_idem s : Py.strip (Py.strip s) = Py.strip s.
Proof.
  unfold Py.strip.
  rewrite (lstrip_id (Py.rstrip (Py.lstrip s)))
    by apply rstrip_first, lstrip_first.
  apply rstrip_idem.
Qed.

(** ** Timestamps *)

Lemma in_range_spec lo hi x : in_range lo hi x = true -> (lo <= x <= hi)%Z.
Proof. unfold in_range. intros H. apply andb_prop in H as [H1 H2]. lia. Qed.

Lemma datetime_new_valid y m d H M S us t :
  datetime_new y m d H M S us = Ok t -> valid_datetime t.
Proof.
  unfold datetime_new, check_date.
  destruct (in_range 1 9999 y && in_range 1 12 m
            && in_range 1 (days_in_month y m) d) eqn:E1;
    cbn [mbind outcome_bind]; [|discriminate].
  destruct (in_range 0 23 H && in_range 0 59 M && in_range 0 59 S
            && in_range 0 999999 us) eqn:E2; [|discriminate].
  intros [= <-].
  repeat (apply andb_prop in E1 as [E1 ?]).
  repeat (apply andb_prop in E2 as [E2 ?]).
  repeat match goal with H : in_range _ _ _ = true |- _ =>
    apply in_range_spec in H end.
  unfold valid_datetime. cbn. lia.
Qed.

Lemma strptime_valid s fmt t : strptime s fmt = Ok t -> valid_datetime t.
Proof.
  unfold strptime.
  destruct (format_regex false fmt); [|discriminate].
  destruct (match_here true r s) as [[n g]|]; [|discriminate].
  destruct (negb _); [discriminate|]. apply datetime_new_valid.
Qed.

Lemma try_formats_valid fmts s t :
  try_formats fmts s = Ok (Some t) -> valid_datetime t.
Proof.
  induction fmts as [|fmt rest IH]; simpl; [discriminate|].
  destruct (strptime s fmt) as [d|[]|] eqn:E; simpl; try discriminate.
  - intros [= <-]. now apply strptime_valid in E.
  - exact IH.
Qed.

Lemma extract_timestamp_valid now line d :
  _extract_timestamp now line = Ok d -> d = now \/ valid_datetime d.
Proof.
  unfold _extract_timestamp.
  destruct (compiled_search PATTERNS_timestamp line) as [m|];
    [|intros [= <-]; now left].
  destruct (group_str m 1) as [w| |]; cbn [mbind outcome_bind]; try discriminate.
  destruct (try_formats formats w) as [[t|]| |] eqn:E;
    cbn [mbind outcome_bind]; try discriminate; intros [= <-].
  - right. now apply try_formats_valid in E.
  - now left.
Qed.

(** ** The message has no bracketed text left *)

Lemma component_intro ic x :
  x <> "" -> all_in ic (None_of ["]"%char]) x = true ->
  matches ic PATTERNS_component ("[" +:+ x +:+ "]") [] [(1, x)].
Proof.
  intros Hne Hx. cbv [PATTERNS_component Cat lit].
  apply (m_seq ic _ _ "[" (x +:+ "]") [] [] [(1, x)]);
    [constructor; now destruct ic|].
  apply (m_seq ic _ _ x "]" [] [(1, x)] [(1, x)]);
    [|constructor; now destruct ic].
  constructor. constructor; auto; [|exact I].
  destruct x; [congruence | simpl; lia].
Qed.

Lemma here_pair k g s :
  match_here false PATTERNS_component s = Some (k, g) -> starts_pair s.
Proof.
  intros H. apply match_here_sound in H as (w & s' & -> & M & _).
  apply component_group in M as (x & _ & -> & Hx & Hne).
  exists x, s'. split; [now rewrite !str_app_assoc | auto].
Qed.

Lemma pair_here s :
  starts_pair s -> match_here false PATTERNS_component s <> None.
Proof.
  intros (x & rest & -> & Hne & Hx).
  replace ("[" +:+ x +:+ "]" +:+ rest) with (("[" +:+ x +:+ "]") +:+ rest)
    by now rewrite !str_app_assoc.
  eapply match_here_complete. now apply component_intro.
Qed.

Lemma here_positive g s :
  match_here false PATTERNS_component s <> Some (0, g).
Proof.
  intros H. apply match_here_sound in H as (w & s' & -> & M & L).
  apply component_group in M as (x & _ & -> & _). discriminate L.
Qed.

Lemma all_in_nb_bracket x rest :
  all_in false (None_of ["]"%char]) (x +:+ String "]" rest) = false.
Proof. rewrite all_in_app. apply andb_false_r. Qed.

(** A text has no closing bracket, or splits at its first one. *)
Lemma split_at_bracket s :
  all_in false (None_of ["]"%char]) s = true
  \/ exists x rest, s = x +:+ "]" +:+ rest /\ all_in false (None_of ["]"%char]) x = true.
Proof.
  induction s as [|c s IH]; [now left|].
  destruct (charset_match false (None_of ["]"%char]) c) eqn:E.
  - destruct IH as [IH|(x & rest & -> & Hx)].
    + left. cbn [all_in]. now rewrite E, IH.
    + right. exists (String c x), rest. split; [reflexivity|].
      cbn [all_in]. now rewrite E, Hx.
  - right. exists "", s. split; [|reflexivity].
    unfold charset_match, chr_eq in E. cbn [existsb] in E.
    rewrite orb_false_r in E. apply negb_false_iff in E.
    apply Ascii.eqb_eq in E. now subst c.
Qed.

Lemma pair_has_bracket s : starts_pair s -> all_in false (None_of ["]"%char]) s = false.
Proof.
  intros (x & rest & -> & _ & _).
  change ("[" +:+ x +:+ "]" +:+ rest) with (String "[" (x +:+ String "]" rest)).
  cbn [all_in]. rewrite all_in_nb_bracket. apply andb_false_r.
Qed.

Lemma has_pair_nil : ~ has_pair "".
Proof.
  intros (pre & t & E & (x & rest & -> & _)).
  destruct pre; discriminate E.
Qed.

Lemma has_pair_cons c s :
  has_pair (String c s) -> starts_pair (String c s) \/ has_pair s.
Proof.
  intros (pre & t & E & Ht). destruct pre as [|d pre].
  - left. simpl in E. now rewrite E.
  - right. simpl in E. injection E as _ ->. now exists pre, t.
Qed.

Lemma has_pair_tail c s : has_pair s -> has_pair (String c s).
Proof. intros (pre & t & -> & Ht). now exists (String c pre), t. Qed.

Lemma has_pair_app a s b : has_pair s -> has_pair (a +:+ s +:+ b).
Proof.
  intros (pre & t & -> & (x & rest & -> & Hne & Hx)).
  exists (a +:+ pre), ("[" +:+ x +:+ "]" +:+ rest +:+ b).
  split; [now rewrite !str_app_assoc|]. now exists x, (rest +:+ b).
Qed.

(** Deleting the matches of the component pattern leaves a text without
    closing bracket as it is. *)
Lemma sub_component_id s :
  all_in false (None_of ["]"%char]) s = true -> sub_skip false PATTERNS_component 0 s = s.
Proof.
  induction s as [|c s IH]; [reflexivity|]. intros H.
  cbn [sub_skip].
  destruct (match_here false PATTERNS_component (String c s))
    as [[[|k] g]|] eqn:E.
  - now apply here_positive in E.
  - apply here_pair, pair_has_bracket in E. congruence.
  - simpl in H. apply andb_prop in H as [_ H]. now rewrite IH.
Qed.

(** After the component pattern was deleted no bracket pair is left. *)
Lemma sub_component_clean s : forall n,
  ~ has_pair (sub_skip false PATTERNS_component n s).
Proof.
  induction s as [|c s IH]; intros n; [apply has_pair_nil|].
  destruct n as [|n]; [|apply IH]. cbn [sub_skip].
  assert (Copy : ~ starts_pair (String c s) ->
                 ~ has_pair (String c (sub_skip false PATTERNS_component 0 s))).
  { intros Hn Hp. apply has_pair_cons in Hp as [Hp|Hp]; [|now apply (IH 0)].
    destruct Hp as (x & rest & E & Hne & Hx).
    change ("[" +:+ x +:+ "]" +:+ rest)
      with (String "[" (x +:+ "]" +:+ rest)) in E.
    injection E as -> E.
    destruct (split_at_bracket s) as [Hs|(x0 & rest0 & -> & Hx0)].
    - rewrite sub_component_id in E by assumption. subst s.
      now rewrite all_in_nb_bracket in Hs.
    - destruct x0 as [|d x0].
      + change ("" +:+ "]" +:+ rest0) with (String "]" rest0) in E.
        assert (F : exists r, sub_skip false PATTERNS_component 0
                                (String "]" rest0) = String "]" r).
        { cbn [sub_skip].
          destruct (match_here false PATTERNS_component (String "]" rest0))
            as [[[|k] g]|] eqn:M; eauto.
          apply here_pair in M as (y & r & M & _). discriminate M. }
        destruct F as [r F]. rewrite F in E.
        destruct x as [|e x]; [congruence|].
        change (String e x +:+ "]" +:+ rest)
          with (String e (x +:+ "]" +:+ rest)) in E.
        injection E as <- _. discriminate Hx.
      + apply Hn. exists (String d x0), rest0. split; [reflexivity|].
        split; [discriminate | assumption]. }
  destruct (match_here false PATTERNS_component (String c s))
    as [[[|k] g]|] eqn:E.
  - now apply here_positive in E.
  - apply IH.
  - apply Copy. intros Hp. now apply pair_here in Hp.
Qed.

Lemma lstrip_suffix s : exists a, s = a +:+ Py.lstrip s.
Proof.
  induction s as [|c s [a IH]]; [now exists ""|]. simpl.
  destruct (Py.isspace c); [|now exists ""].
  exists (String c a). change (String c s = String c (a +:+ Py.lstrip s)).
  f_equal. exact IH.
Qed.

Lemma rstrip_prefix s : exists b, s = Py.rstrip s +:+ b.
Proof.
  induction s as [|c s [b IH]]; [now exists ""|]. simpl.
  destruct (Py.rstrip s) as [|d t] eqn:E.
  - destruct (Py.isspace c).
    + now exists (String c s).
    + exists s. reflexivity.
  - exists b. change (String c s = String c (String d t +:+ b)).
    f_equal. exact IH.
Qed.

Lemma has_pair_strip s : has_pair (Py.strip s) -> has_pair s.
Proof.
  intros H. unfold Py.strip in H.
  destruct (lstrip_suffix s) as [a Ha].
  destruct (rstrip_prefix (Py.lstrip s)) as [b Hb].
  rewrite Ha, Hb. now apply has_pair_app.
Qed.

Lemma digits_nb ds : all_in false Digit ds = true -> all_in false (None_of ["]"%char]) ds = true.
Proof.
  induction ds as [|c ds IH]; [reflexivity|]. cbn [all_in]. intros H.
  apply andb_prop in H as [Hc Hds]. rewrite (IH Hds), andb_true_r.
  cbn [charset_match] in Hc.
  destruct c as [[] [] [] [] [] [] [] []]; try discriminate Hc; reflexivity.
Qed.

(** Where no bracket pair is left the pid and thread pattern finds nothing
    to delete. *)
Lemma sub_pid_thread_id s :
  ~ has_pair s -> sub_skip false PATTERNS_pid_thread 0 s = s.
Proof.
  induction s as [|c s IH]; [reflexivity|]. intros H. cbn [sub_skip].
  assert (Hs : sub_skip false PATTERNS_pid_thread 0 s = s).
  { apply IH. intros Hp. now apply H, has_pair_tail. }
  destruct (match_here false PATTERNS_pid_thread (String c s))
    as [[[|k] g]|] eqn:E; [now rewrite Hs| |now rewrite Hs].
  exfalso. apply H.
  apply match_here_sound in E as (w & s' & E & M & _).
  apply pid_thread_shape in M as (ds & t & _ & -> & Hd & _ & Ht & Hne).
  rewrite E. exists "", (("[" +:+ ds +:+ ":" +:+ t +:+ "]") +:+ s').
  split; [reflexivity|]. exists (ds +:+ ":" +:+ t), s'.
  split; [now rewrite !str_app_assoc|]. split.
  - destruct ds; discriminate.
  - rewrite !all_in_app, (digits_nb ds Hd), Ht. reflexivity.
Qed.

Lemma message_has_no_pair line :
  ~ has_pair (fold_left clean
                [PATTERNS_timestamp; PATTERNS_level; PATTERNS_component;
                 PATTERNS_pid_thread] line).
Proof.
  cbn [fold_left].
  set (m2 := clean (clean line PATTERNS_timestamp) PATTERNS_level).
  assert (H3 : ~ has_pair (clean m2 PATTERNS_component)).
  { unfold clean, sub_empty. intros H. apply has_pair_strip in H.
    now apply sub_component_clean in H. }
  unfold clean at 1. unfold sub_empty.
  rewrite sub_pid_thread_id by assumption.
  intros H. now apply has_pair_strip in H.
Qed.

(** ** Timestamps with a UTC offset *)

Lemma occurrences_app c a b :
  occurrences c (a +:+ b) = occurrences c a + occurrences c b.
Proof.
  induction a as [|x a IH]; [reflexivity|]. cbn [String.append occurrences].
  rewrite IH. lia.
Qed.

Lemma occurrences_length c s : occurrences c s <= String.length s.
Proof.
  induction s as [|x s IH]; simpl; [lia|]. destruct (Ascii.eqb x c); lia.
Qed.

Lemma occurrences_outside c cs s :
  charset_match true cs c = false -> all_in true cs s = true ->
  occurrences c s = 0.
Proof.
  intros Hc. induction s as [|x s IH]; [reflexivity|]. cbn [all_in occurrences].
  intros H. apply andb_prop in H as [Hx Hs]. rewrite (IH Hs).
  destruct (Ascii.eqb_spec x c) as [->|]; [congruence | reflexivity].
Qed.

(** A matched text has no more occurrences of a character than the pattern
    allows. *)
Lemma matches_occurrences c r w g g' :
  matches true r w g g' ->
  forall n, max_occurrences c r = Some n -> occurrences c w <= n.
Proof.
  induction 1 as [g|cs x g Hx|cs lo hi w g Hall Hlo Hhi
                 |r1 r2 w1 w2 g g1 g2 _ IH1 _ IH2
                 |r1 r2 w g g' _ IH|r1 r2 w g g' _ IH
                 |r w g g' _ IH|r g|i r w g g' _ IH];
    intros n Hn; cbn [max_occurrences] in Hn.
  - simpl. lia.
  - injection Hn as <-. cbn [occurrences].
    destruct (Ascii.eqb_spec x c) as [->|]; [rewrite Hx|]; simpl; lia.
  - destruct (charset_match true cs c) eqn:Hc.
    + subst hi. cbn [within] in Hhi.
      pose proof (occurrences_length c w). lia.
    + injection Hn as <-. rewrite (occurrences_outside c cs w Hc Hall). lia.
  - rewrite occurrences_app.
    destruct (max_occurrences c r1) as [a|], (max_occurrences c r2) as [b|];
      try discriminate. injection Hn as <-.
    specialize (IH1 a eq_refl). specialize (IH2 b eq_refl). lia.
  - destruct (max_occurrences c r1) as [a|], (max_occurrences c r2) as [b|];
      try discriminate. injection Hn as <-. specialize (IH a eq_refl). lia.
  - destruct (max_occurrences c r1) as [a|], (max_occurrences c r2) as [b|];
      try discriminate. injection Hn as <-. specialize (IH b eq_refl). lia.
  - now apply IH.
  - simpl. lia.
  - now apply IH.
Qed.

(** A text with more than two colons fits none of the formats. *)
Lemma strptime_colons s fmt :
  In fmt formats -> 3 <= occurrences ":" s -> strptime s fmt = Raise ValueError.
Proof.
  intros Hin Hc.
  destruct (strptime_outcome s fmt) as [[t Ht]|]; [|assumption].
  exfalso. unfold strptime in Ht.
  destruct (format_regex false fmt) as [r|] eqn:Er; [|discriminate].
  destruct (match_here true r s) as [[n g]|] eqn:Em; [|discriminate].
  destruct (Nat.eqb_spec n (String.length s)) as [->|]; [|discriminate].
  apply match_here_sound in Em as (w & s' & -> & M & L).
  rewrite str_length_app in L.
  assert (s' = "") as -> by (destruct s'; [reflexivity | simpl in L; lia]).
  rewrite str_app_nil_r in Hc.
  assert (B : max_occurrences ":" r = Some 2).
  { cbn [formats In] in Hin.
    repeat destruct Hin as [<-|Hin]; try (vm_compute in Er; injection Er as <-;
      vm_compute; reflexivity). destruct Hin. }
  pose proof (matches_occurrences ":" r w [] g M 2 B). lia.
Qed.

Lemma try_formats_colons fmts s :
  (forall fmt, In fmt fmts -> In fmt formats) ->
  3 <= occurrences ":" s -> try_formats fmts s = Ok None.
Proof.
  intros Hsub Hc. induction fmts as [|fmt rest IH]; [reflexivity|].
  cbn [try_formats]. rewrite strptime_colons; auto.
  - cbn [mbind outcome_bind try_except is_ValueError]. apply IH.
    intros f Hf. apply Hsub. now right.
  - apply Hsub. now left.
Qed.

End ParserFacts2.

(** ** More on the aggregation path *)

Module MonitorFacts2.
Import PyFacts ParserFacts MonitorFacts CounterFacts BufferFacts.
Import LogMonitor Spec Spec2.

(** What [_process_log_line] prints for an entry. *)
Lemma process_entry_console now line e md w :
  line <> "" ->
  LogParser.parse_line now line = Ok e ->
  metadata e = Some md ->
  console (_process_log_line now line w).1 = console w ++ shown line e w.
Proof.
  intros Hne Hp Hmd. unfold _process_log_line, shown.
  destruct line as [|c line]; [congruence|].
  change (Py.is_empty (String c line)) with false. cbv iota.
  unfold triggers, flagged. rewrite Hmd.
  unfold try_catch. unfold bind at 1. unfold lift at 1. rewrite Hp.
  unfold is_error, level_in. cbn [existsb]. rewrite Hmd, orb_false_r.
  destruct (String.eqb (level e) "ERROR" || String.eqb (level e) "FATAL");
    [|destruct (has_error md)];
    cbv [when _log_error _log_to_monitor open incr update read ret bind lift
         print is_verbose orb andb negb];
    cbn [can_open set_stats set_recent_entries set_error_buffer set_errors_file
         set_monitor_log set_console verbose];
    destruct (can_open w ErrorsFile);
    cbn [can_open set_stats set_recent_entries set_error_buffer set_errors_file
         set_monitor_log set_console verbose];
    destruct (can_open w MonitorLog);
    cbn [can_open set_stats set_recent_entries set_error_buffer set_errors_file
         set_monitor_log set_console verbose];
    destruct (verbose w) as [[]|] eqn:Ev;
    cbn [fst console set_console]; rewrite <- ?app_assoc, ?app_nil_r;
    reflexivity.
Qed.

Lemma take_length n : forall s, String.length (Py.take n s) <= n.
Proof.
  induction n as [|n IH]; intros [|c s]; simpl; try lia.
  specialize (IH s). lia.
Qed.

Lemma log_data_short e : String.length (mr_message (log_data e)) <= 200.
Proof. apply take_length. Qed.

(** A step only appends to the two append-only files. *)
Lemma step_appends w ev :
  exists ml ef,
    monitor_log (step w ev) = monitor_log w ++ ml
    /\ errors_file (step w ev) = errors_file w ++ ef
    /\ Forall (fun r => String.length (mr_message r) <= 200) ml.
Proof.
  destruct ev as [now line|n|now t|can]; simpl.
  - destruct line as [|c line].
    { exists [], []. simpl. now rewrite !app_nil_r. }
    destruct (parse_line_ok now (String c line))
      as (e & Hp & _ & [md Hmd] & _).
    destruct (process_entry now (String c line) e md w ltac:(done) Hp Hmd)
      as (w' & -> & _ & _ & _ & Hf & Hm & _).
    cbn [fst]. rewrite Hf, Hm.
    exists (if (negb (triggers e) || can_open w ErrorsFile)
               && can_open w MonitorLog then [log_data e] else []),
           (if triggers e && can_open w ErrorsFile then [error_data e] else []).
    destruct (triggers e && can_open w ErrorsFile);
      destruct ((negb (triggers e) || can_open w ErrorsFile)
                && can_open w MonitorLog);
      rewrite ?app_nil_r; repeat split;
      first [ now (constructor; [apply log_data_short | constructor])
            | now constructor ].
  - exists [], []. now rewrite !app_nil_r.
  - exists [], []. rewrite !app_nil_r.
    unfold _save_current_stats, bind, read, open, update.
    destruct (can_open w StatsFile); auto.
  - exists [], []. now rewrite !app_nil_r.
Qed.

Lemma run_appends evs : forall w,
  exists ml ef,
    monitor_log (run evs w) = monitor_log w ++ ml
    /\ errors_file (run evs w) = errors_file w ++ ef
    /\ Forall (fun r => String.length (mr_message r) <= 200) ml.
Proof.
  induction evs as [|ev evs IH] using rev_ind; intros w.
  - exists [], []. simpl. now rewrite !app_nil_r.
  - rewrite run_snoc. destruct (IH w) as (ml & ef & Hm & He & Hs).
    destruct (step_appends (run evs w) ev) as (ml' & ef' & Hm' & He' & Hs').
    exists (ml ++ ml'), (ef ++ ef'). rewrite Hm', He', Hm, He, !app_assoc.
    repeat split. now apply Forall_app.
Qed.

(** *** Counters *)

Lemma keyed_sum_fresh p k v (m : gmap string Z) :
  m !! k = None ->
  keyed_sum p (<[k := v]> m) = (if p k then (v + keyed_sum p m)%Z else keyed_sum p m).
Proof.
  intros Hk. unfold keyed_sum. rewrite map_fold_insert_L; auto.
  intros j1 j2 z1 z2 y _ _ _. destruct (p j1), (p j2); lia.
Qed.

Lemma keyed_sum_insert p k v (m : gmap string Z) :
  keyed_sum p (<[k := v]> m) =
  (keyed_sum p m + (if p k then v - counter m k else 0))%Z.
Proof.
  unfold counter. destruct (m !! k) as [x|] eqn:Hk; simpl.
  - rewrite <- (insert_delete_id m k x Hk) at 2.
    rewrite <- (insert_delete_eq m k v).
    rewrite !keyed_sum_fresh by apply lookup_delete_eq.
    destruct (p k); lia.
  - rewrite keyed_sum_fresh by done. destruct (p k); lia.
Qed.

Lemma keyed_sum_add1 p k (m : gmap string Z) :
  keyed_sum p (add1 k m) = (keyed_sum p m + (if p k then 1 else 0))%Z.
Proof. unfold add1. rewrite keyed_sum_insert. destruct (p k); lia. Qed.

(** The counters after an entry went through. *)
Lemma counter_after_entry e (m : gmap string Z) k :
  counter ((if triggers e then add1 "total_errors" else id)
             (add1 ("component_" +:+ component e)
                (add1 ("level_" +:+ level e) (add1 "total_lines" m)))) k
  = (counter m k + raised e k)%Z.
Proof.
  unfold raised.
  destruct (triggers e); unfold id; rewrite !counter_add1;
    repeat (case_decide; subst; try discriminate; try congruence); lia.
Qed.

Lemma raised_nonneg e k : (0 <= raised e k)%Z.
Proof.
  unfold raised. destruct (triggers e); repeat case_decide; lia.
Qed.

(** What a step does to the counters. *)
Lemma step_counter w ev k :
  counter (stats (step w ev)) k =
  match ev with
  | NewLine _ _ =>
      match entry_of ev with
      | Some e => (counter (stats w) k + raised e k)%Z
      | None => counter (stats w) k
      end
  | Scanned n => if decide (k = "active_processes") then n else counter (stats w) k
  | _ => counter (stats w) k
  end.
Proof.
  destruct ev as [now line|n|now t|can]; simpl.
  - destruct line as [|c line]; [reflexivity|].
    destruct (parse_line_ok now (String c line))
      as (e & Hp & _ & [md Hmd] & _).
    destruct (process_entry now (String c line) e md w ltac:(done) Hp Hmd)
      as (w' & -> & Hs & _).
    change (Py.is_empty (String c line)) with false. cbv iota.
    rewrite Hp. cbn [fst]. rewrite Hs. apply counter_after_entry.
  - unfold counter at 1. rewrite lookup_insert.
    case_decide; subst; case_decide; try congruence; reflexivity.
  - unfold _save_current_stats, bind, read, open, update.
    destruct (can_open w StatsFile); reflexivity.
  - reflexivity.
Qed.

Lemma step_can_open w ev :
  can_open (step w ev) =
  match ev with Environment can => can | _ => can_open w end.
Proof.
  destruct ev as [now line|n|now t|can]; simpl; try reflexivity.
  - destruct line as [|c line]; [reflexivity|].
    destruct (parse_line_ok now (String c line))
      as (e & Hp & _ & [md Hmd] & _).
    destruct (process_entry now (String c line) e md w ltac:(done) Hp Hmd)
      as (w' & -> & _ & _ & _ & _ & _ & _ & _ & H & _).
    exact H.
  - unfold _save_current_stats, bind, read, open, update.
    destruct (can_open w StatsFile); reflexivity.
Qed.

(** What a step does to the two append-only files. *)
Lemma step_files w ev :
  monitor_log (step w ev) =
    monitor_log w ++
    match entry_of ev with
    | Some e => if (negb (triggers e) || can_open w ErrorsFile)
                   && can_open w MonitorLog then [log_data e] else []
    | None => []
    end
  /\ errors_file (step w ev) =
    errors_file w ++
    match entry_of ev with
    | Some e => if triggers e && can_open w ErrorsFile
                then [error_data e] else []
    | None => []
    end.
Proof.
  destruct ev as [now line|n|now t|can]; simpl; rewrite ?app_nil_r; auto.
  - destruct line as [|c line]; [simpl; now rewrite !app_nil_r|].
    destruct (parse_line_ok now (String c line))
      as (e & Hp & _ & [md Hmd] & _).
    destruct (process_entry now (String c line) e md w ltac:(done) Hp Hmd)
      as (w' & -> & _ & _ & _ & Hf & Hm & _).
    change (Py.is_empty (String c line)) with false. cbv iota.
    rewrite Hp. cbn [fst]. rewrite Hf, Hm.
    destruct (triggers e && can_open w ErrorsFile);
      destruct ((negb (triggers e) || can_open w ErrorsFile)
                && can_open w MonitorLog);
      rewrite ?app_nil_r; auto.
  - unfold _save_current_stats, bind, read, open, update.
    destruct (can_open w StatsFile); auto.
Qed.

Lemma last_drop {A} k (l : list A) : k < length l -> last (drop k l) = last l.
Proof.
  revert k. induction l as [|x l IH]; intros k H; simpl in H; [lia|].
  destruct k as [|k]; [reflexivity|]. simpl drop.
  rewrite IH by lia. destruct l; [simpl in H; lia | reflexivity].
Qed.

Lemma last_last_n {A} n (l : list A) : 0 < n -> last (last_n n l) = last l.
Proof.
  intros Hn. unfold last_n. destruct l as [|x l]; [reflexivity|].
  apply last_drop. simpl. lia.
Qed.

(** The two totals count the entries and the errors of a run. *)
Lemma run_counts ml ef sf can (evs : list event) :
  counter (stats (run evs (__init__ ml ef sf can))) "total_lines"
  = Z.of_nat (length (entries_of evs))
  /\ counter (stats (run evs (__init__ ml ef sf can))) "total_errors"
     = Z.of_nat (length (errors_of evs)).
Proof.
  induction evs as [|ev evs [IH1 IH2]] using rev_ind; [split; reflexivity|].
  rewrite run_snoc, !step_counter, entries_of_snoc, errors_of_snoc,
    !length_app, IH1, IH2.
  destruct ev as [now line|n|now t|can'];
    [|cbn [entry_of length]; split; repeat case_decide; try discriminate; lia..].
  destruct (entry_of (NewLine now line)) as [e|] eqn:E;
    [|cbn [length]; split; lia].
  unfold raised. destruct (triggers e); cbn [length];
    split; repeat (case_decide; try discriminate; try congruence); lia.
Qed.

End MonitorFacts2.

(** ** The stats thread, stopping, and the summary *)

Module LoopFacts2.
Import PyFacts ParserFacts MonitorFacts CounterFacts BufferFacts MonitorFacts2.
Import LogMonitor LogMonitor2 Spec Spec2.

(** A flush that can open the stats file stores the counters as they are and
    changes nothing else. *)
Lemma save_ok now t w :
  can_open w StatsFile = true ->
  _save_current_stats now t w
  = (set_stats_file
       (Some {| sd_counters := stats w; sd_timestamp := now;
                sd_uptime_seconds :=
                  match start_time w with
                  | Some t0 => (t - t0)%Z
                  | None => 0%Z
                  end |}) w, Ok tt).
Proof.
  intros H. unfold _save_current_stats, bind, read, open, update.
  now rewrite H.
Qed.

Lemma save_fails now t w :
  can_open w StatsFile = false ->
  _save_current_stats now t w = (w, Raise OSError).
Proof.
  intros H. unfold _save_current_stats, bind, read, open, update.
  now rewrite H.
Qed.

(** While the stats thread is in its loop, the stats file holds the counters
    as they were at the last flush, which are the counters of the state the
    loop has reached. *)
Lemma stats_loop_snapshot ticks : forall w w',
  ticks <> [] ->
  _save_stats_periodically ticks w = (w', None) ->
  exists d t, last ticks = Some t /\ stats_file w' = Some d
              /\ sd_counters d = stats w' /\ sd_timestamp d = tick_now t.
Proof.
  induction ticks as [|t rest IH]; intros w w' Hne H; [congruence|].
  cbn [_save_stats_periodically] in H.
  destruct (running w); [|discriminate].
  destruct (can_open (while_asleep t w) StatsFile) eqn:Hc.
  - rewrite save_ok in H by assumption.
    destruct rest as [|t' rest].
    + cbn [_save_stats_periodically] in H. injection H as <-.
      eexists _, t. repeat split.
    + destruct (IH _ _ ltac:(discriminate) H) as (d & tl & Hl & Hd).
      exists d, tl. split; [exact Hl | exact Hd].
  - rewrite save_fails in H by assumption. discriminate.
Qed.

Lemma last_scanned_snoc evs ev :
  last_scanned (evs ++ [ev]) =
  match ev with Scanned n => n | _ => last_scanned evs end.
Proof. unfold last_scanned. now rewrite foldl_app. Qed.

Lemma run_running evs : forall w, running (run evs w) = running w.
Proof.
  induction evs as [|ev evs IH] using rev_ind; intros w; [reflexivity|].
  rewrite run_snoc. transitivity (running (run evs w)); [|apply IH].
  destruct ev as [now line|n|now t|can]; simpl; try reflexivity.
  - destruct line as [|c line]; [reflexivity|].
    destruct (parse_line_ok now (String c line))
      as (e & Hp & _ & [md Hmd] & _).
    destruct (process_entry now (String c line) e md (run evs w)
                ltac:(done) Hp Hmd)
      as (w' & -> & _ & _ & _ & _ & _ & _ & H & _).
    exact H.
  - unfold _save_current_stats, bind, read, open, update.
    destruct (can_open (run evs w) StatsFile); reflexivity.
Qed.

End LoopFacts2.

(** ** More on the process scanner *)

Module ProcessFacts2.
Import ParserFacts ProcessMonitor ProcessFacts LogMonitor LogMonitor2.

Section Scan.
Context {float : Type} (parse_float : string -> option float)
        (rough_mb : float -> float).

(** Where a process of the list comes from. *)
Lemma scan_line_some now line (p : ProcessInfo float) :
  scan_line parse_float rough_mb now line = Ok (Some p) ->
  Py.contains "warp" (Py.lower line) = true
  /\ Py.contains "preview" (Py.lower line) = true
  /\ 11 <= length (Py.split line)
  /\ (exists p1, Py.split line !! 1 = Some p1 /\ int p1 = Ok (pid p))
  /\ command p = Py.join " " (drop 10 (Py.split line))
  /\ started p = now
  /\ status p = "running".
Proof.
  unfold scan_line.
  destruct (Py.contains "warp" (Py.lower line)); [|discriminate].
  destruct (Py.contains "preview" (Py.lower line)); [|discriminate].
  cbn [andb].
  destruct (Nat.leb_spec 11 (length (Py.split line))) as [Hl|Hl]; [|discriminate].
  unfold index, float_of.
  destruct (Py.split line !! 1) as [p1|];
    cbn [mbind outcome_bind try_except is_row_error]; [|discriminate].
  destruct (int p1) as [z|[]|] eqn:Ez;
    cbn [mbind outcome_bind try_except is_row_error]; try discriminate.
  destruct (Py.split line !! 2) as [p2|];
    cbn [mbind outcome_bind try_except is_row_error]; [|discriminate].
  destruct (parse_float p2) as [cpu|];
    cbn [mbind outcome_bind try_except is_row_error]; [|discriminate].
  destruct (Py.split line !! 3) as [p3|];
    cbn [mbind outcome_bind try_except is_row_error]; [|discriminate].
  destruct (parse_float p3) as [mem|];
    cbn [mbind outcome_bind try_except is_row_error]; [|discriminate].
  destruct (isdigit p2);
    [destruct (int p2) as [z2|[]|]|];
    cbn [mbind outcome_bind try_except is_row_error]; try discriminate;
    intros [= <-]; cbn; repeat split; eauto.
Qed.

Lemma scan_lines_from now lines : forall ps (p : ProcessInfo float),
  scan_lines parse_float rough_mb now lines = Ok ps -> p ∈ ps ->
  exists line, line ∈ lines
               /\ scan_line parse_float rough_mb now line = Ok (Some p).
Proof.
  induction lines as [|line rest IH]; intros ps p H Hp;
    cbn [ProcessMonitor.scan_lines] in H.
  - injection H as <-. now apply not_elem_of_nil in Hp.
  - destruct (scan_line parse_float rough_mb now line) as [r| |] eqn:E;
      cbn [mbind outcome_bind] in H; try discriminate.
    destruct (scan_lines parse_float rough_mb now rest) as [ps'| |] eqn:E';
      cbn [mbind outcome_bind] in H; try discriminate.
    injection H as <-.
    destruct r as [q|].
    + apply elem_of_cons in Hp as [->|Hp].
      * exists line. split; [apply elem_of_cons; now left | exact E].
      * destruct (IH ps' p eq_refl Hp) as (l & Hl & Hs).
        exists l. split; [apply elem_of_cons; now right | exact Hs].
    + destruct (IH ps' p eq_refl Hp) as (l & Hl & Hs).
      exists l. split; [apply elem_of_cons; now right | exact Hs].
Qed.

Lemma scan_lines_length now lines : forall ps,
  scan_lines parse_float rough_mb now lines = Ok ps ->
  length ps <= length lines.
Proof.
  induction lines as [|line rest IH]; intros ps H;
    cbn [ProcessMonitor.scan_lines] in H.
  - injection H as <-. reflexivity.
  - destruct (scan_line parse_float rough_mb now line) as [r| |];
      cbn [mbind outcome_bind] in H; try discriminate.
    destruct (scan_lines parse_float rough_mb now rest) as [ps'| |] eqn:E';
      cbn [mbind outcome_bind] in H; try discriminate.
    injection H as <-. specialize (IH ps' eq_refl).
    destruct r; simpl; lia.
Qed.

(** The table keeps every pid it has. *)
Lemma scan_keeps_pids now ps (table : gmap Z (ProcessInfo float)) k :
  is_Some (table !! k) ->
  is_Some ((scan_processes parse_float rough_mb now ps table).1 !! k).
Proof.
  intros [p Hp]. unfold scan_processes.
  destruct (stdout ← ps; scan_lines parse_float rough_mb now
                           (Py.split_on "010" stdout)) as [procs| |];
    cbn [fst]; eauto.
  destruct (decide (k ∈ pid <$> procs)) as [Hin|Hn].
  - apply list_elem_of_fmap in Hin as (q & -> & Hq).
    destruct (store_all_stored procs
                (mark_terminated (list_to_set (pid <$> procs))
                   (map_to_list table).*1 table) q Hq) as (q' & Hq' & _).
    eauto.
  - rewrite store_all_other by assumption.
    rewrite mark_terminated_lookup, Hp. case_bool_decide; eauto.
Qed.

Lemma store_all_last ps (table : gmap Z (ProcessInfo float)) q :
  last ps = Some q -> store_all ps table !! pid q = Some q.
Proof.
  intros H. destruct ps as [|p ps] using rev_ind; [discriminate|].
  rewrite last_snoc in H. injection H as ->.
  rewrite store_all_snoc. apply lookup_insert_eq.
Qed.



End Scan.

End ProcessFacts2.

(** ** More on the tail loop *)

Module TailFacts2.
Import PyFacts ParserFacts MonitorFacts LoopFacts MonitorFacts2.
Import LogMonitor Tail Spec Spec2 ReSpec.





(** At the end of the file a turn of the loop changes nothing. *)
Lemma poll_at_end now fs h w :
  String.length (data fs (inode h)) <= pos h -> poll now fs h w = (w, Ok h).
Proof.
  intros H. unfold poll, readline. rewrite drop_all by assumption.
  cbn [first_line Py.is_empty String.length ret].
  destruct h as [i p]. cbn [inode pos]. now rewrite Nat.add_0_r.
Qed.




End TailFacts2.

(** * Further results *)

Module Extra.

Import Re ReSpec PyFacts ReFacts SearchFacts ParserFacts ParserFacts2.
Import LogParser LogMonitor Spec Spec2.
Import Inputs Inputs2.


(** X2.  The two error triggers are not independent in one direction: the
    error vocabulary is searched in the whole line, level marker included, so
    an entry whose level is ERROR in any case always has the [has_error]
    flag. *)
Theorem error_level_sets_the_flag (now : datetime) (line : string) :
  exists e,
    parse_line now line = Ok e
    /\ (Py.lower (level e) = "error" -> flagged e = true).
Proof.
  destruct (parse_line_ok now line) as (e & Hp & _).
  exists e. split; [exact Hp|]. intros Hl.
  apply parse_line_fields in Hp as (_ & Hlv & _ & _ & _ & _ & Hmd).
  unfold flagged. rewrite Hmd. cbn [has_error].
  apply bool_decide_eq_true_2.
  destruct (extract_level_found _ _ Hlv) as [[_ E]|(pre & post & E & _)].
  - rewrite E in Hl. discriminate Hl.
  - unfold compiled_search.
    destruct (search true PATTERNS_error line) eqn:S; [eauto|].
    apply search_None in S. exfalso. apply S. rewrite E.
    now apply error_word_occurs.
Qed.

Lemma error_level_witness :
  exists e,
    parse_line clock0 "[Error] boom" = Ok e
    /\ level e = "Error" /\ flagged e = true /\ triggers e = true.
Proof.
  destruct (error_level_sets_the_flag clock0 "[Error] boom") as (e & Hp & H).
  exists e. split; [exact Hp|].
  assert (L : level e = "Error")
    by (vm_compute in Hp; injection Hp as <-; reflexivity).
  assert (F : flagged e = true) by (apply H; rewrite L; reflexivity).
  repeat split; auto. unfold triggers. now rewrite F, orb_true_r.
Defined.

(** X3.  The process id and the thread id are found together or not at all.
    When found they stand in the line as "[digits:thread]": the process id is
    the value of the digits, so it is never negative, and the thread id is
    the text up to the closing bracket, never empty. *)
Theorem pid_and_thread_come_together (now : datetime) (line : string) :
  exists e,
    parse_line now line = Ok e
    /\ ((pid e = None /\ thread_id e = None)
        \/ (exists ds t pre post,
              line = pre +:+ "[" +:+ ds +:+ ":" +:+ t +:+ "]" +:+ post
              /\ ds <> "" /\ all_in true Digit ds = true
              /\ t <> "" /\ all_in true (None_of ["]"%char]) t = true
              /\ pid e = Some (nat_of_digits 0 ds)
              /\ (0 <= nat_of_digits 0 ds)%Z
              /\ thread_id e = Some t)).
Proof.
  destruct (parse_line_ok now line) as (e & Hp & _).
  exists e. split; [exact Hp|].
  apply parse_line_fields in Hp as (_ & _ & _ & Hpt & _).
  now apply extract_pid_thread_found.
Qed.

Lemma pid_and_thread_witness :
  exists e,
    parse_line clock0 "[INFO] [0042:render] frame" = Ok e
    /\ pid e = Some 42%Z /\ thread_id e = Some "render".
Proof.
  destruct (pid_and_thread_come_together clock0 "[INFO] [0042:render] frame")
    as (e & Hp & _).
  exists e. split; [exact Hp|].
  vm_compute in Hp. injection Hp as <-. split; reflexivity.
Defined.

(** X4.  Cleaning only deletes: the message is never longer than the line,
    and it has no white space at either end. *)
Theorem message_is_trimmed_and_no_longer (now : datetime) (line : string) :
  exists e,
    parse_line now line = Ok e
    /\ String.length (message e) <= String.length line
    /\ stripped (message e).
Proof.
  destruct (parse_line_ok now line) as (e & Hp & _).
  exists e. split; [exact Hp|].
  apply parse_line_fields in Hp as (_ & _ & _ & _ & -> & _).
  cbn [fold_left]. split.
  - pose proof (clean_length line PATTERNS_timestamp) as H1.
    pose proof (clean_length (clean line PATTERNS_timestamp) PATTERNS_level)
      as H2.
    pose proof (clean_length (clean (clean line PATTERNS_timestamp)
                                    PATTERNS_level) PATTERNS_component) as H3.
    pose proof (clean_length (clean (clean (clean line PATTERNS_timestamp)
                                           PATTERNS_level) PATTERNS_component)
                             PATTERNS_pid_thread) as H4.
    lia.
  - unfold stripped, clean at 1. apply strip_idem.
Qed.

(** X5.  The timestamp of an entry is the time of parsing or a date and time
    that exist: month 1 to 12, a day of that month (29 February in leap years
    only), hour below 24, minute and second below 60. *)
Theorem timestamp_is_now_or_valid (now : datetime) (line : string) :
  exists e,
    parse_line now line = Ok e
    /\ (timestamp e = now \/ valid_datetime (timestamp e)).
Proof.
  destruct (parse_line_ok now line) as (e & Hp & _).
  exists e. split; [exact Hp|].
  apply parse_line_fields in Hp as (Ht & _).
  now apply extract_timestamp_valid in Ht.
Qed.

(** X6.  No bracketed field is left in the message: for every line, the
    message has no opening bracket followed by a text that is not empty, has
    no closing bracket, and is followed by a closing bracket.  So neither the
    level marker, nor a component, nor a "[pid:thread]" field survives the
    cleaning, wherever it stands in the line. *)
Theorem message_has_no_bracketed_text (now : datetime) (line : string) :
  exists e,
    parse_line now line = Ok e
    /\ ~ (exists pre x post,
            message e = pre +:+ "[" +:+ x +:+ "]" +:+ post
            /\ x <> "" /\ all_in false (None_of ["]"%char]) x = true).
Proof.
  destruct (parse_line_ok now line) as (e & Hp & _).
  exists e. split; [exact Hp|].
  apply parse_line_fields in Hp as (_ & _ & _ & _ & -> & _).
  intros (pre & x & post & E & Hne & Hx).
  apply (message_has_no_pair line). rewrite E.
  exists pre, ("[" +:+ x +:+ "]" +:+ post). split; [reflexivity|].
  now exists x, post.
Qed.

Import MonitorFacts CounterFacts BufferFacts MonitorFacts2.


(** X8.  The two append-only files only grow: whatever happens during a
    run, the monitor log and the errors file after it are what they were
    before with records added at the end, and every record added to the
    monitor log has a message of at most 200 characters. *)
Theorem files_only_grow (evs : list event) (w : World) :
  exists ml ef,
    monitor_log (run evs w) = monitor_log w ++ ml
    /\ errors_file (run evs w) = errors_file w ++ ef
    /\ Forall (fun r => String.length (mr_message r) <= 200) ml.
Proof. apply run_appends. Qed.


(** X9.  A failed write to the errors file costs the entry its line in the
    monitor log.  When an entry is an error and the errors file cannot be
    opened, the exception is caught and reported on the console, the entry
    is already in both buffers and counted, but it is written to neither
    file, even if the monitor log can be opened. *)
Theorem failed_error_write_skips_the_monitor_log (now : datetime)
        (line : string) (w : World) :
  line <> "" ->
  can_open w ErrorsFile = false ->
  exists e w',
    parse_line now line = Ok e
    /\ _process_log_line now line w = (w', Ok tt)
    /\ (triggers e = true ->
        errors_file w' = errors_file w
        /\ monitor_log w' = monitor_log w
        /\ recent_entries w' = Deque.append e (recent_entries w)
        /\ error_buffer w' = Deque.append e (error_buffer w)
        /\ counter (stats w') "total_lines"
           = (counter (stats w) "total_lines" + 1)%Z
        /\ counter (stats w') "total_errors"
           = (counter (stats w) "total_errors" + 1)%Z
        /\ console w' = console w ++ [ErrorProcessing OSError; ErrorLine line]).
Proof.
  intros Hne Hc.
  destruct (parse_line_ok now line) as (e & Hp & _ & [md Hmd] & _).
  pose proof (process_entry_console now line e md w Hne Hp Hmd) as Hcon.
  destruct (process_entry now line e md w Hne Hp Hmd)
    as (w' & Hw & Hs & Hr & Hb & Hf & Hm & _).
  exists e, w'. split; [exact Hp|]. split; [exact Hw|]. intros Ht.
  rewrite Hw in Hcon. cbn [fst] in Hcon. unfold shown in Hcon.
  assert (K : forall k, counter (stats w') k = (counter (stats w) k + raised e k)%Z)
    by (intros k; rewrite Hs; apply counter_after_entry).
  rewrite !K. unfold raised.
  rewrite Ht, Hc in *. cbn [andb orb negb] in *.
  repeat split; auto;
    repeat (case_decide; try discriminate; try congruence); lia.
Qed.

Lemma failed_error_write_witness :
  exists e w',
    parse_line clock0 "connection failed" = Ok e
    /\ _process_log_line clock0 "connection failed"
         (__init__ [] [] None errors_file_locked) = (w', Ok tt)
    /\ errors_file w' = [] /\ monitor_log w' = []
    /\ console w' = [ErrorProcessing OSError; ErrorLine "connection failed"].
Proof.
  destruct (failed_error_write_skips_the_monitor_log clock0 "connection failed"
              (__init__ [] [] None errors_file_locked)
              ltac:(discriminate) eq_refl)
    as (e & w' & Hp & Hw & H).
  exists e, w'. split; [exact Hp|]. split; [exact Hw|].
  vm_compute in Hp. inversion Hp as [Ee]. clear Hp. subst e.
  destruct (H eq_refl) as (Hf & Hm & _ & _ & _ & _ & Hc).
  repeat split; assumption.
Defined.

(** X10.  While every file can be opened, nothing is lost and the order of
    arrival is kept: after a run started by [__init__] the monitor log is
    what it was followed by the record of every entry processed, in order,
    and the errors file is what it was followed by the record of every entry
    that was an error, in order. *)
Theorem writable_run_records_everything ml ef sf (evs : list event) :
  always_writable evs ->
  let w := run evs (__init__ ml ef sf (fun _ => true)) in
  monitor_log w = ml ++ map log_data (entries_of evs)
  /\ errors_file w = ef ++ map error_data (errors_of evs).
Proof.
  intros H. cbv zeta.
  assert (G : (forall f, can_open (run evs (__init__ ml ef sf (fun _ => true))) f
                         = true)
              /\ monitor_log (run evs (__init__ ml ef sf (fun _ => true)))
                 = ml ++ map log_data (entries_of evs)
              /\ errors_file (run evs (__init__ ml ef sf (fun _ => true)))
                 = ef ++ map error_data (errors_of evs)); [|tauto].
  induction evs as [|ev evs IH] using rev_ind.
  - cbn. rewrite !app_nil_r. auto.
  - destruct IH as (Hc & Hm & He).
    { intros can Hin. apply H, in_or_app. now left. }
    rewrite run_snoc, entries_of_snoc, errors_of_snoc, !map_app, !app_assoc.
    destruct (step_files (run evs (__init__ ml ef sf (fun _ => true))) ev)
      as [Sm Se].
    rewrite Sm, Se, Hm, He, !Hc, step_can_open.
    split.
    + destruct ev as [now line|n|now t|can]; try exact Hc.
      apply H, in_or_app. right. now left.
    + destruct (entry_of ev) as [e|]; [|auto].
      destruct (triggers e); cbn [negb orb andb map]; auto.
Qed.

Lemma writable_run_witness :
  let w := run three_lines (__init__ [] [] None (fun _ => true)) in
  length (monitor_log w) = 3 /\ length (errors_file w) = 2.
Proof.
  intros w.
  assert (H : always_writable three_lines).
  { intros can Hin. cbn [three_lines In] in Hin.
    repeat destruct Hin as [Hin|Hin]; try discriminate Hin. destruct Hin. }
  destruct (writable_run_records_everything [] [] None three_lines H)
    as [Hm He].
  subst w. rewrite Hm, He. split; vm_compute; reflexivity.
Defined.

(** X11.  After a run started by [__init__], [total_lines] is the number of
    entries processed (the lines that were not empty) and [total_errors] is
    the number of those that were errors; so [total_errors] never exceeds
    [total_lines]. *)
Theorem counters_count_entries ml ef sf can (evs : list event) :
  let w := run evs (__init__ ml ef sf can) in
  counter (stats w) "total_lines" = Z.of_nat (length (entries_of evs))
  /\ counter (stats w) "total_errors" = Z.of_nat (length (errors_of evs))
  /\ (counter (stats w) "total_errors" <= counter (stats w) "total_lines")%Z.
Proof.
  cbv zeta. pose proof (run_counts ml ef sf can evs) as G.
  destruct G as [G1 G2]. rewrite G1, G2. repeat split.
  unfold errors_of. pose proof (List.filter_length_le triggers (entries_of evs)).
  lia.
Qed.

(** X12.  Counters never go down: over any run, from any state, every
    counter other than [active_processes] ends at least as high as it
    started. *)
Theorem counters_never_decrease (evs : list event) (w : World) (k : string) :
  k <> "active_processes" ->
  (counter (stats w) k <= counter (stats (run evs w)) k)%Z.
Proof.
  intros Hk. induction evs as [|ev evs IH] using rev_ind; [cbn; lia|].
  rewrite run_snoc, step_counter.
  destruct ev as [now line|n|now t|can]; try lia.
  - destruct (entry_of (NewLine now line)) as [e|]; [|lia].
    pose proof (raised_nonneg e k). lia.
  - case_decide; [congruence | lia].
Qed.

Lemma counters_never_decrease_witness :
  (counter (stats (__init__ [] [] None (fun _ => true))) "total_lines"
   <= counter (stats (run three_lines (__init__ [] [] None (fun _ => true))))
              "total_lines")%Z.
Proof.
  apply (counters_never_decrease three_lines
           (__init__ [] [] None (fun _ => true)) "total_lines").
  discriminate.
Defined.

(** X13.  After every event of a run started by [__init__], [total_lines]
    also equals the sum of the [component_*] counters. *)
Theorem total_lines_is_component_sum ml ef sf can (evs : list event) :
  let w := run evs (__init__ ml ef sf can) in
  counter (stats w) "total_lines" = component_sum (stats w).
Proof.
  cbv zeta. induction evs as [|ev evs IH] using rev_ind.
  - cbn [run foldl stats __init__]. unfold component_sum, keyed_sum.
    now rewrite map_fold_empty.
  - rewrite run_snoc. set (w := run evs (__init__ ml ef sf can)) in *.
    rewrite step_counter.
    destruct ev as [now line|n|now t|can']; cbn [entry_of step].
    + destruct line as [|c line]; [exact IH|].
      destruct (parse_line_ok now (String c line))
        as (e & Hp & _ & [md Hmd] & _).
      destruct (process_entry now (String c line) e md w ltac:(done) Hp Hmd)
        as (w' & -> & Hs & _).
      change (Py.is_empty (String c line)) with false. cbv iota.
      rewrite Hp. cbn [fst]. rewrite Hs. unfold component_sum, raised.
      destruct (triggers e); unfold id; rewrite !keyed_sum_add1;
        change (is_component_key "total_lines") with false;
        change (is_component_key "total_errors") with false;
        change (is_component_key ("level_" +:+ level e)) with false;
        change (is_component_key ("component_" +:+ component e)) with true;
        cbv iota; fold (component_sum (stats w));
        repeat (case_decide; try discriminate; try congruence); lia.
    + cbn [set_active_processes update fst stats set_stats].
      unfold component_sum. rewrite keyed_sum_insert.
      change (is_component_key "active_processes") with false. cbv iota.
      fold (component_sum (stats w)). case_decide; [discriminate | lia].
    + unfold _save_current_stats, bind, read, open, update.
      destruct (can_open w StatsFile); exact IH.
    + exact IH.
Qed.

(** X14.  The newest entry is never the one evicted, and the error buffer
    holds errors only: after a run started by [__init__] the last item of
    the recent-entries buffer is the entry processed last, and every item of
    the error buffer satisfies one of the two triggers. *)
Theorem newest_entry_is_kept ml ef sf can (evs : list event) :
  let w := run evs (__init__ ml ef sf can) in
  last (Deque.items (recent_entries w)) = last (entries_of evs)
  /\ Forall (fun e => triggers e = true) (Deque.items (error_buffer w)).
Proof.
  cbv zeta. destruct (buffered_run evs ml ef sf can) as (_ & _ & I1 & I2).
  rewrite I1, I2. split; [apply last_last_n; lia|].
  apply Forall_forall. intros e He. unfold last_n in He.
  apply list_elem_of_In in He.
  assert (Hin : In e (errors_of evs)).
  { rewrite <- (take_drop (length (errors_of evs) - 100) (errors_of evs)).
    apply in_or_app. now right. }
  unfold errors_of in Hin. now apply List.filter_In in Hin.
Qed.

Import LogMonitor2 LoopFacts LoopFacts2.

(** X15.  The stats thread looks at the running flag only before it sleeps:
    when the monitor is stopped during the sleep, the thread still makes its
    flush when it wakes, storing the counters of that moment, and returns at
    its next look at the flag. *)
Theorem stop_during_sleep_still_flushes (t t' : tick) (rest : list tick)
        (w : World) :
  running w = true ->
  running (while_asleep t w) = false ->
  can_open (while_asleep t w) StatsFile = true ->
  exists w' d,
    _save_stats_periodically (t :: t' :: rest) w = (w', Some (Ok tt))
    /\ stats_file w' = Some d
    /\ sd_counters d = stats (while_asleep t w)
    /\ sd_timestamp d = tick_now t.
Proof.
  intros Hr Hs Hc. cbn [_save_stats_periodically]. rewrite Hr.
  rewrite save_ok by assumption.
  cbn [running set_stats_file]. rewrite Hs.
  eexists _, _. split; [reflexivity|]. repeat split.
Qed.

Lemma stop_during_sleep_witness :
  exists w' d,
    _save_stats_periodically (stopped_while_asleep :: two_flushes) monitoring
    = (w', Some (Ok tt))
    /\ stats_file w' = Some d /\ sd_uptime_seconds d = 0%Z.
Proof.
  destruct (stop_during_sleep_still_flushes stopped_while_asleep
              {| while_asleep := fun w => w; tick_now := clock0;
                 tick_time := 60%Z |}
              [{| while_asleep := fun w => w; tick_now := clock0;
                  tick_time := 120%Z |}]
              monitoring eq_refl eq_refl eq_refl)
    as (w' & d & Hl & Hf & _).
  exists w', d. split; [exact Hl|]. split; [exact Hf|].
  vm_compute in Hl. injection Hl as <-. vm_compute in Hf.
  injection Hf as <-. reflexivity.
Defined.

(** X16.  A flush overwrites the stats file with the counters of the moment:
    whenever the stats thread has gone through its turns and is still in its
    loop, the stats file holds the snapshot made at the last turn, whose
    counters are those of the state reached. *)
Theorem stats_file_is_the_last_snapshot (ticks : list tick) (w w' : World) :
  ticks <> [] ->
  _save_stats_periodically ticks w = (w', None) ->
  exists d t,
    last ticks = Some t /\ stats_file w' = Some d
    /\ sd_counters d = stats w' /\ sd_timestamp d = tick_now t.
Proof. apply stats_loop_snapshot. Qed.

Lemma stats_file_witness :
  exists w' d,
    _save_stats_periodically two_flushes monitoring = (w', None)
    /\ stats_file w' = Some d /\ sd_uptime_seconds d = 0%Z.
Proof.
  assert (E : exists w', _save_stats_periodically two_flushes monitoring
                         = (w', None)) by (eexists; reflexivity).
  destruct E as [w' E].
  destruct (stats_file_is_the_last_snapshot two_flushes monitoring w'
              ltac:(discriminate) E) as (d & t & _ & Hd & _).
  exists w', d. split; [exact E|]. split; [exact Hd|].
  vm_compute in E. injection E as <-. vm_compute in Hd.
  injection Hd as <-. reflexivity.
Defined.


(** X18.  [get_summary] after a run started by [__init__]: the number of
    recent errors is the number of errors of the run up to the capacity of
    100, so it never exceeds 100 nor [total_errors]; the active processes
    are the count stored by the last scan, 0 before the first; and the
    status tells the running flag. *)
Theorem summary_of_a_run ml ef sf can (evs : list event) :
  let w := run evs (__init__ ml ef sf can) in
  let s := get_summary w in
  su_recent_errors s = min 100 (length (errors_of evs))
  /\ (Z.of_nat (su_recent_errors s) <= counter (stats w) "total_errors")%Z
  /\ su_active_processes s = last_scanned evs
  /\ su_monitoring_status s = (if running w then "running" else "stopped")
  /\ su_stats s = stats w.
Proof.
  cbv zeta. unfold get_summary. cbn [su_recent_errors su_active_processes
                                     su_monitoring_status su_stats].
  destruct (buffered_run evs ml ef sf can) as (_ & _ & _ & I2).
  destruct (run_counts ml ef sf can evs) as (_ & C2).
  unfold Deque.len. rewrite I2, length_last_n, C2.
  repeat split; try lia.
  fold (counter (stats (run evs (__init__ ml ef sf can))) "active_processes").
  clear I2 C2. induction evs as [|ev evs IH] using rev_ind; [reflexivity|].
  rewrite run_snoc, step_counter, last_scanned_snoc.
  destruct ev as [now line|n|now t|can']; try exact IH.
  - destruct (entry_of (NewLine now line)) as [e|]; [|exact IH].
    rewrite IH. unfold raised.
    destruct (triggers e); repeat (case_decide; try discriminate); lia.
  - case_decide; congruence.
Qed.

Import ProcessMonitor ProcessFacts ProcessFacts2.

(** X19.  The process table never loses a pid: whatever [ps] gives, its
    output or an exception, every pid of the table before the scan is in the
    table after it; and when [ps] raises, the table is left as it was and the
    empty list is returned. *)
Theorem scan_never_forgets_a_pid
        {float : Type} (parse_float : string -> option float)
        (rough_mb : float -> float)
        (now : datetime) (ps : outcome string)
        (table : gmap Z (ProcessInfo float)) :
  dom table ⊆ dom (scan_processes parse_float rough_mb now ps table).1
  /\ (forall e, scan_processes parse_float rough_mb now (Raise e) table
                = (table, [])).
Proof.
  split; [|reflexivity]. intros k Hk. apply elem_of_dom in Hk.
  apply elem_of_dom. now apply scan_keeps_pids.
Qed.

(** X20.  What a scan returns: every process of the list comes from a line
    of the [ps] output that mentions both "warp" and "preview" in some case
    and has at least 11 fields; its pid is the second field read as an
    integer, its command the fields from the eleventh on joined by single
    spaces, its status "running".  The list is no longer than the output has
    lines, and when a pid occurs on several lines the table keeps the last
    of them. *)
Theorem scan_result_comes_from_the_output
        {float : Type} (parse_float : string -> option float)
        (rough_mb : float -> float)
        (now : datetime) (stdout : string)
        (table : gmap Z (ProcessInfo float)) :
  let r := scan_processes parse_float rough_mb now (Ok stdout) table in
  (forall p, p ∈ r.2 ->
     exists line,
       line ∈ Py.split_on "010" stdout
       /\ Py.contains "warp" (Py.lower line) = true
       /\ Py.contains "preview" (Py.lower line) = true
       /\ 11 <= length (Py.split line)
       /\ (exists p1, Py.split line !! 1 = Some p1 /\ int p1 = Ok (pid p))
       /\ command p = Py.join " " (drop 10 (Py.split line))
       /\ status p = "running")
  /\ length r.2 <= length (Py.split_on "010" stdout)
  /\ (forall q, last r.2 = Some q -> r.1 !! pid q = Some q).
Proof.
  unfold scan_processes. cbn [mbind outcome_bind].
  destruct (scan_lines_ok parse_float rough_mb now (Py.split_on "010" stdout))
    as (procs & E & _).
  rewrite E. cbn [fst snd]. split; [|split].
  - intros p Hp.
    destruct (scan_lines_from parse_float rough_mb now _ procs p E Hp)
      as (line & Hl & Hs).
    apply scan_line_some in Hs as (H1 & H2 & H3 & H4 & H5 & _ & H7).
    exists line. repeat split; assumption.
  - now apply (scan_lines_length parse_float rough_mb now).
  - intros q Hq. now apply store_all_last.
Qed.

Lemma scan_result_witness :
  let r := scan_processes text_float id clock0 (Ok ps_one) ∅ in
  exists p, r.2 = [p] /\ pid p = 10%Z
            /\ command p = "/Volumes/Warp/WarpPreview.app/Contents/MacOS/preview"
            /\ r.1 !! 10%Z = Some p.
Proof.
  intros r.
  destruct (scan_result_comes_from_the_output text_float id clock0 ps_one ∅)
    as (_ & _ & H).
  assert (E : exists p, r.2 = [p] /\ pid p = 10%Z
                        /\ command p
                           = "/Volumes/Warp/WarpPreview.app/Contents/MacOS/preview")
    by (eexists; repeat split; vm_compute; reflexivity).
  destruct E as (p & E & Hpid & Hcmd). exists p.
  repeat split; auto. rewrite <- Hpid. apply H. fold r. now rewrite E.
Defined.


Import Tail TailFacts2.

(** X22.  What the file holds when monitoring starts is never replayed:
    [_monitor_logs] opens the file at its end, and as long as the file does
    not change every turn of the loop delivers nothing and leaves monitor and
    position as they were. *)
Theorem old_content_is_not_replayed (now : datetime) (fs : FS) (i n : nat)
        (w : World) :
  target fs = Some i ->
  _monitor_logs fs (repeat (quiet_turn now fs) n) w
  = (w, Ok (Some {| inode := i; pos := String.length (data fs i) |})).
Proof.
  intros Ht. unfold _monitor_logs, open_at_end. rewrite Ht.
  assert (L : forall h, String.length (data fs (inode h)) <= pos h ->
                        tail_loop (repeat (quiet_turn now fs) n) h w
                        = (w, Ok h)).
  { induction n as [|n IH]; intros h Hh; [reflexivity|].
    cbn [repeat tail_loop quiet_turn since_last turn_now turn_fs].
    unfold bind at 1, update. unfold bind at 1, read.
    destruct (running w); [|reflexivity].
    unfold bind. rewrite poll_at_end by assumption. now apply IH. }
  unfold bind. rewrite L by (cbn [inode pos]; lia). reflexivity.
Qed.

Lemma old_content_witness :
  exists w h,
    _monitor_logs fs_before (repeat (quiet_turn clock0 fs_before) 5) monitoring
    = (w, Ok (Some h))
    /\ Deque.len (recent_entries w) = 0 /\ pos h = 16.
Proof.
  eexists _, _. split.
  - apply (old_content_is_not_replayed clock0 fs_before 7 5 monitoring).
    reflexivity.
  - split; reflexivity.
Defined.





(** X25.  The component is the text of the first bracket pair of the line:
    whatever stands before the first opening bracket and after the closing
    one, the text between them, when not empty and free of closing brackets,
    is returned as the component, be it a level, a "pid:thread" field or
    anything else. *)
Theorem component_is_the_first_bracket (now : datetime) (pre x post : string) :
  all_in true (None_of ["["%char]) pre = true ->
  x <> "" ->
  all_in true (None_of ["]"%char]) x = true ->
  exists e,
    parse_line now (pre +:+ "[" +:+ x +:+ "]" +:+ post) = Ok e
    /\ component e = x.
Proof.
  intros Hpre Hne Hx.
  destruct (parse_line_ok now (pre +:+ "[" +:+ x +:+ "]" +:+ post))
    as (e & Hp & _).
  exists e. split; [exact Hp|].
  apply parse_line_fields in Hp as (_ & _ & Hc & _).
  rewrite (component_is_first_bracket pre x post Hpre Hne Hx) in Hc.
  now injection Hc.
Qed.

Lemma component_first_bracket_witness :
  exists e,
    parse_line clock0 "12:00 [4711:worker] [WARN] [db] slow query" = Ok e
    /\ component e = "4711:worker" /\ level e = "WARN".
Proof.
  destruct (component_is_the_first_bracket clock0 "12:00 " "4711:worker"
              " [WARN] [db] slow query")
    as (e & Hp & Hc); try reflexivity; try discriminate.
  exists e. split; [exact Hp|]. split; [exact Hc|].
  vm_compute in Hp. injection Hp as <-. reflexivity.
Defined.

(** X26.  A timestamp with a UTC offset is recognised and then dropped: the
    timestamp pattern accepts an offset such as "+02:00", but no format of
    the list does, so whenever the text matched by the pattern has three
    colons, as it has with an offset, the entry gets the time of parsing. *)
Theorem offset_timestamp_falls_back_to_now (now : datetime) (line : string) :
  exists e,
    parse_line now line = Ok e
    /\ (forall m ts,
          compiled_search PATTERNS_timestamp line = Some m ->
          group m 1 = Some ts ->
          3 <= occurrences ":" ts ->
          timestamp e = now).
Proof.
  destruct (parse_line_ok now line) as (e & Hp & _).
  exists e. split; [exact Hp|]. intros m ts Hm Hg Hc.
  apply parse_line_fields in Hp as (Ht & _).
  unfold _extract_timestamp, group_str in Ht. rewrite Hm, Hg in Ht.
  cbn [mbind outcome_bind] in Ht.
  rewrite (try_formats_colons formats ts) in Ht by auto.
  cbn [mbind outcome_bind] in Ht. now injection Ht.
Qed.

Lemma offset_timestamp_witness :
  exists e,
    parse_line clock0 "2024-06-30T23:59:59+02:00 [INFO] [core] up" = Ok e
    /\ timestamp e = clock0.
Proof.
  destruct (offset_timestamp_falls_back_to_now clock0
              "2024-06-30T23:59:59+02:00 [INFO] [core] up") as (e & Hp & H).
  exists e. split; [exact Hp|].
  eapply H; [vm_compute; reflexivity | vm_compute; reflexivity |].
  vm_compute. lia.
Defined.

End Extra.

(** * Main results *)

Import Re ReSpec PyFacts ReFacts SearchFacts ParserFacts.
Import LogParser LogMonitor Spec MonitorFacts CounterFacts BufferFacts.
Import Inputs.

(** C1 (as the code has it).  On the line of the scenario [parse_line]
    returns the bracketed level and a message free of timestamp, level and
    component, but the component it returns is the text of the first bracket
    of the line, which is the level: "ERROR", not "renderer". *)
Theorem parse_line_scenario (now : datetime) :
  exists e,
    parse_line now "2025-01-01T10:00:00Z [ERROR] [renderer] failed to load" = Ok e
    /\ level e = "ERROR"
    /\ message e = "failed to load"
    /\ component e = "ERROR"
    /\ component e <> "renderer".
Proof.
  eexists. split; [vm_compute; reflexivity|]. cbn [level message component].
  repeat split. discriminate.
Qed.

(** C2.  For every line and every clock value, [parse_line] raises nothing and
    returns one entry, whose raw line is the input and whose metadata is
    present; when no part of the line matches the level pattern the level is
    "INFO", when none matches the component pattern the component is
    "unknown", and when none matches the timestamp pattern the timestamp is
    the time of parsing. *)
Theorem parse_line_total (now : datetime) (line : string) :
  exists e,
    parse_line now line = Ok e
    /\ raw_line e = line
    /\ (exists md, metadata e = Some md)
    /\ (~ occurs true PATTERNS_timestamp line -> timestamp e = now)
    /\ (~ occurs true PATTERNS_level line -> level e = "INFO")
    /\ (~ occurs true PATTERNS_component line -> component e = "unknown").
Proof. apply parse_line_ok. Qed.

(** C4.  Whatever happens to a monitor after [__init__] (lines handed to
    [_process_log_line], scan counts stored, statistics saved, files becoming
    writable or not), after every event [total_lines] equals the sum of the
    [level_*] counters. *)
Theorem total_lines_is_level_sum ml ef sf can (evs : list event) :
  let w := run evs (__init__ ml ef sf can) in
  counter (stats w) "total_lines" = level_sum (stats w).
Proof.
  apply (counted_run evs). unfold counted. cbn [stats __init__].
  now rewrite level_sum_empty.
Qed.

(** C5.  The recent-entries buffer has capacity 1000 and the error buffer
    capacity 100.  After any run neither holds more than its capacity, and
    each holds, in insertion order, the last entries appended to it: the last
    1000 entries processed, and the last 100 of those that were errors.
    Appending to a full buffer raises nothing.  When 1500 entries were
    processed, the recent-entries buffer holds exactly 1000, the entries 501
    to 1500. *)
Theorem ring_buffers ml ef sf can (evs : list event) :
  let w := run evs (__init__ ml ef sf can) in
  Deque.maxlen (recent_entries w) = 1000
  /\ Deque.maxlen (error_buffer w) = 100
  /\ Deque.len (recent_entries w) <= 1000
  /\ Deque.len (error_buffer w) <= 100
  /\ Deque.items (recent_entries w) = last_n 1000 (entries_of evs)
  /\ Deque.items (error_buffer w) = last_n 100 (errors_of evs)
  /\ (length (entries_of evs) = 1500 ->
      Deque.len (recent_entries w) = 1000
      /\ Deque.items (recent_entries w) = drop 500 (entries_of evs)).
Proof.
  intros w. destruct (buffered_run evs ml ef sf can) as (M1 & M2 & I1 & I2).
  fold w in M1, M2, I1, I2. unfold Deque.len. rewrite I1, I2.
  rewrite !length_last_n. repeat split; auto; try lia.
  unfold last_n. now rewrite H.
Qed.

Lemma ring_buffers_witness :
  let w := run lines1500 (__init__ [] [] None (fun _ => true)) in
  length (entries_of lines1500) = 1500
  /\ Deque.len (recent_entries w) = 1000
  /\ Deque.items (recent_entries w) = drop 500 (entries_of lines1500).
Proof.
  intros w. assert (H : length (entries_of lines1500) = 1500)
    by (vm_compute; reflexivity).
  split; [exact H|].
  exact (proj2 (proj2 (proj2 (proj2 (proj2 (proj2
           (ring_buffers [] [] None (fun _ => true) lines1500)))))) H).
Defined.



(** C9 (as the code has it).  The level pattern is searched ignoring case
    and the matched text is returned as it stands in the line: for a line
    that starts with "[fatal]" the level is "fatal", which is none of the six
    upper-case values, and the entry is not treated as an error. *)
Theorem level_keeps_the_case_of_the_line (now : datetime) :
  exists e,
    parse_line now "[fatal] disk is gone" = Ok e
    /\ level e = "fatal"
    /\ ~ In (level e) ["DEBUG"; "INFO"; "WARN"; "ERROR"; "TRACE"; "FATAL"]
    /\ triggers e = false.
Proof.
  eexists. split; [vm_compute; reflexivity|]. cbn [level].
  repeat split.
  intros H. cbn [In] in H. repeat destruct H as [H|H]; try discriminate H.
  exact H.
Qed.

(** C10.  On the empty line [_process_log_line] returns at once: the world
    (counters, both buffers, the monitor log, the errors file, the console)
    is the one it started from, and nothing is raised. *)
Theorem empty_line_is_a_no_op (now : datetime) (w : World) :
  _process_log_line now "" w = (w, Ok tt).
Proof. reflexivity. Qed.

Import ProcessMonitor ProcessFacts LoopFacts Tail.





(** C8 (as the code has it).  [_save_current_stats] lets the exception of a
    failed write through and [_save_stats_periodically] has no handler: when
    the stats file cannot be opened at a flush, the function ends with that
    exception and no later flush is made, whatever the turns that follow. *)
Theorem failed_flush_stops_the_stats_thread (t : tick) (rest : list tick)
        (w : World) :
  running w = true ->
  can_open (while_asleep t w) StatsFile = false ->
  _save_stats_periodically (t :: rest) w
  = (while_asleep t w, Some (Raise OSError)).
Proof. apply failed_flush_ends_the_loop. Qed.

Lemma failed_flush_witness :
  exists w',
    _save_stats_periodically outage_then_fine monitoring
    = (w', Some (Raise OSError))
    /\ stats_file w' = None.
Proof.
  eexists. split.
  - apply (failed_flush_stops_the_stats_thread _ _ monitoring); reflexivity.
  - reflexivity.
Defined.
